(** * String analyzer service: a shallow embedding of [analyzer/views.py]
    and [analyzer/urls.py]

    The service keeps analysed strings in a module-level dictionary keyed by
    the SHA-256 digest of the string and answers five kinds of request.  The
    development follows the source file top to bottom:

    - Python values: [str] as a list of code points, [int] as [Z], the
      dictionary [db] as an association list in insertion order;
    - the library calls the views make: [str.lower], [str.split], [int],
      [str.encode('utf-8')], [hashlib.sha256], [re.search];
    - the views themselves, as functions from a store and a request to an
      outcome and the next store;
    - the properties of the specification, one theorem each. *)

From Stdlib Require Import NArith ZArith String Ascii Bool Lia Btauto.
From stdpp Require Import base option list gmap.

Local Open Scope N_scope.

(** ** Python strings *)

(** A Python [str] is a sequence of Unicode code points. *)
Abbreviation pystr := (list N).

(** The code points of an ASCII literal of the source. *)
Definition cps (s : string) : pystr :=
  map N_of_ascii (list_ascii_of_string s).
Arguments cps _%_string : simpl never.

(** [a == b] on two [str]. *)
Definition str_eqb (a b : pystr) : bool := bool_decide (a = b).

(** [s.startswith(p)]. *)
Fixpoint str_startswith (p s : pystr) : bool :=
  match p, s with
  | [], _ => true
  | _ :: _, [] => false
  | x :: p', y :: s' => (x =? y) && str_startswith p' s'
  end.

(** [needle in hay] on two [str]: the substring test. *)
Fixpoint str_contains (needle hay : pystr) : bool :=
  str_startswith needle hay ||
  match hay with
  | [] => false
  | _ :: hay' => str_contains needle hay'
  end.

Definition is_ascii (c : N) : bool := c <? 128.

Definition ascii_lower (c : N) : N :=
  if (65 <=? c) && (c <=? 90) then c + 32 else c.

(** [c.isspace()]: the code points [str.split], [int] and [\s] treat as
    white space. *)
Definition is_space (c : N) : bool :=
  ((9 <=? c) && (c <=? 13)) || ((28 <=? c) && (c <=? 32)) ||
  (c =? 0x85) || (c =? 0xA0) || (c =? 0x1680) ||
  ((0x2000 <=? c) && (c <=? 0x200A)) ||
  (c =? 0x2028) || (c =? 0x2029) || (c =? 0x202F) || (c =? 0x205F) ||
  (c =? 0x3000).

(** What the interpreter's Unicode database says about the code points
    outside ASCII.  The views never name these tables; they reach them
    through [str.lower], [int], [str.isdigit] and the regular expressions
    [\d] and [\b].  On ASCII every one of these operations is fixed in
    this file.  The three laws are facts of the database: a decimal digit
    has a value below ten, is not white space, and is a digit for
    [str.isdigit]. *)
Class Unicode := {
  (** [s.lower()] for a string [s] with a code point outside ASCII *)
  uc_lower : pystr -> pystr;
  (** the value of a decimal digit outside ASCII (category Nd) *)
  uc_decimal : N -> option N;
  (** [c.isalnum()] for a code point outside ASCII *)
  uc_alnum : N -> bool;
  (** [c.isdigit()] for a code point outside ASCII *)
  uc_isdigit : N -> bool;
  uc_decimal_lt : forall c d, uc_decimal c = Some d -> d < 10;
  uc_decimal_not_space : forall c d, uc_decimal c = Some d -> is_space c = false;
  uc_decimal_isdigit : forall c d, uc_decimal c = Some d -> uc_isdigit c = true
}.

(** [s.split()]: the maximal runs of code points that are not white space.
    [word] holds the run being read, most recent code point first. *)
Fixpoint split_go (word : pystr) (s : pystr) : list pystr :=
  match s with
  | [] => match word with [] => [] | _ => [rev word] end
  | c :: s' =>
      if is_space c
      then match word with
           | [] => split_go [] s'
           | _ => rev word :: split_go [] s'
           end
      else split_go (c :: word) s'
  end.

Definition str_split (s : pystr) : list pystr := split_go [] s.

Section Strings.
Context `{Unicode}.

(** [s.lower()]. *)
Definition str_lower (s : pystr) : pystr :=
  if forallb is_ascii s then map ascii_lower s else uc_lower s.

End Strings.

(** ** [compute_string_properties] *)

(** The dictionary the function returns; [sha256_hash] is the key the view
    adds to it afterwards. *)
Record Properties := {
  p_length : Z;
  p_is_palindrome : bool;
  p_unique_characters : Z;
  p_word_count : Z;
  p_character_frequency_map : gmap N Z;
  p_sha256_hash : option pystr
}.

(** The loop [for char in value: char_map[char] = char_map.get(char, 0) + 1]. *)
Definition count_char (char_map : gmap N Z) (char : N) : gmap N Z :=
  <[char := (default 0 (char_map !! char) + 1)%Z]> char_map.

Definition char_frequencies (value : pystr) : gmap N Z :=
  fold_left count_char value ∅.

Section Compute.
Context `{Unicode}.

Definition compute_string_properties (value : pystr) : Properties :=
  let lower_value := str_lower value in
  let char_map := char_frequencies value in
  {| p_length := Z.of_nat (length value);
     p_is_palindrome := str_eqb lower_value (rev lower_value);
     p_unique_characters := Z.of_nat (size (list_to_set value : gset N));
     p_word_count := Z.of_nat (length (str_split value));
     p_character_frequency_map := char_map;
     p_sha256_hash := None |}.

End Compute.
(** ** [value.encode('utf-8')] *)

(** The UTF-8 bytes of one code point; the surrogates U+D800..U+DFFF have
    none ([UnicodeEncodeError]). *)
Definition utf8_char (c : N) : option (list N) :=
  if c <? 0x80 then Some [c]
  else if c <? 0x800 then
    Some [N.lor 0xC0 (N.shiftr c 6); N.lor 0x80 (N.land c 0x3F)]
  else if c <? 0x10000 then
    if (0xD800 <=? c) && (c <=? 0xDFFF) then None
    else Some [N.lor 0xE0 (N.shiftr c 12);
               N.lor 0x80 (N.land (N.shiftr c 6) 0x3F);
               N.lor 0x80 (N.land c 0x3F)]
  else if c <? 0x110000 then
    Some [N.lor 0xF0 (N.shiftr c 18);
          N.lor 0x80 (N.land (N.shiftr c 12) 0x3F);
          N.lor 0x80 (N.land (N.shiftr c 6) 0x3F);
          N.lor 0x80 (N.land c 0x3F)]
  else None.

Fixpoint encode_utf8 (s : pystr) : option (list N) :=
  match s with
  | [] => Some []
  | c :: s' =>
      match utf8_char c, encode_utf8 s' with
      | Some bs, Some rest => Some (bs ++ rest)
      | _, _ => None
      end
  end.

(** ** [hashlib.sha256] (FIPS 180-4), on 32-bit words held in [N] *)
Module SHA256.

Definition mask32 : N := 0xFFFFFFFF.
Definition add32 (x y : N) : N := N.land (x + y) mask32.
Definition rotr (n x : N) : N :=
  N.land (N.lor (N.shiftr x n) (N.shiftl x (32 - n))) mask32.
Definition not32 (x : N) : N := N.lxor x mask32.

Definition Ch (x y z : N) : N := N.lxor (N.land x y) (N.land (not32 x) z).
Definition Maj (x y z : N) : N :=
  N.lxor (N.lxor (N.land x y) (N.land x z)) (N.land y z).
Definition Sigma0 (x : N) : N := N.lxor (N.lxor (rotr 2 x) (rotr 13 x)) (rotr 22 x).
Definition Sigma1 (x : N) : N := N.lxor (N.lxor (rotr 6 x) (rotr 11 x)) (rotr 25 x).
Definition sigma0 (x : N) : N := N.lxor (N.lxor (rotr 7 x) (rotr 18 x)) (N.shiftr x 3).
Definition sigma1 (x : N) : N := N.lxor (N.lxor (rotr 17 x) (rotr 19 x)) (N.shiftr x 10).

(** The constants of the standard are fractional parts of roots of the
    first primes: the first 32 bits after the point of the cube roots of the
    first 64 primes for the rounds, of the square roots of the first 8
    primes for the initial hash value. *)
Definition is_prime (n : nat) : bool :=
  forallb (fun d => negb (n mod d =? 0)%nat) (seq 2 (n - 2)).

Definition primes : list N :=
  map N.of_nat (List.filter is_prime (seq 2 310)).

(** The integer cube root, one bit at a time from bit [bits - 1] down. *)
Fixpoint cube_root_bits (bits : nat) (n root : N) : N :=
  match bits with
  | O => root
  | S bits' =>
      let candidate := N.lor root (N.shiftl 1 (N.of_nat bits')) in
      cube_root_bits bits' n
        (if candidate * candidate * candidate <=? n then candidate else root)
  end.

Definition cube_root_fraction (p : N) : N :=
  N.land (cube_root_bits 36 (N.shiftl p 96) 0) mask32.

Definition square_root_fraction (p : N) : N :=
  N.land (N.sqrt (N.shiftl p 64)) mask32.

Definition K : list N := map cube_root_fraction primes.

Definition H0 : list N := map square_root_fraction (take 8 primes).

(** Padding: a 1 bit, zeros up to 56 mod 64 bytes, the bit length on 8 bytes. *)
Definition be_bytes (n : nat) (x : N) : list N :=
  map (fun i => N.land (N.shiftr x (8 * N.of_nat i)) 0xFF) (rev (seq 0 n)).

Definition pad (msg : list N) : list N :=
  let l := N.of_nat (length msg) in
  let zeros := N.to_nat ((55 + 64 - (l mod 64)) mod 64) in
  msg ++ [0x80] ++ replicate zeros 0 ++ be_bytes 8 (8 * l).

Definition word_of (b3 b2 b1 b0 : N) : N :=
  N.lor (N.lor (N.shiftl b3 24) (N.shiftl b2 16)) (N.lor (N.shiftl b1 8) b0).

Fixpoint words_of (bs : list N) : list N :=
  match bs with
  | b3 :: b2 :: b1 :: b0 :: rest => word_of b3 b2 b1 b0 :: words_of rest
  | _ => []
  end.

(** The message schedule: [w] holds W(t-1), W(t-2), ... most recent first. *)
Fixpoint schedule (n : nat) (w : list N) : list N :=
  match n with
  | O => w
  | S n' =>
      let g i := nth i w 0 in
      schedule n' (add32 (add32 (sigma1 (g 1%nat)) (g 6%nat))
                         (add32 (sigma0 (g 14%nat)) (g 15%nat)) :: w)
  end.

Definition round (st : list N) (kw : N * N) : list N :=
  match st with
  | [a; b; c; d; e; f; g; h] =>
      let t1 := add32 (add32 (add32 h (Sigma1 e)) (add32 (Ch e f g) kw.1)) kw.2 in
      let t2 := add32 (Sigma0 a) (Maj a b c) in
      [add32 t1 t2; a; b; c; add32 d t1; e; f; g]
  | _ => st
  end.

Definition compress (h : list N) (block : list N) : list N :=
  let w := rev (schedule 48 (rev block)) in
  zip_with add32 h (fold_left round (zip K w) h).

Fixpoint blocks (fuel : nat) (ws : list N) : list (list N) :=
  match fuel, ws with
  | S fuel', _ :: _ => take 16 ws :: blocks fuel' (drop 16 ws)
  | _, _ => []
  end.

Definition digest_words (msg : list N) : list N :=
  let ws := words_of (pad msg) in
  fold_left compress (blocks (length ws) ws) H0.

Definition hex_digit (d : N) : N := if d <? 10 then 48 + d else 87 + d.

Definition hex_word (w : N) : pystr :=
  map (fun i => hex_digit (N.land (N.shiftr w (4 * N.of_nat i)) 0xF)) (rev (seq 0 8)).

(** [hashlib.sha256(data).hexdigest()]: 64 lower-case hexadecimal digits. *)
Definition hexdigest (msg : list N) : pystr :=
  concat (map hex_word (digest_words msg)).

End SHA256.

(** [get_sha256_hash]: [None] when [value.encode('utf-8')] raises. *)
Definition get_sha256_hash (value : pystr) : option pystr :=
  SHA256.hexdigest <$> encode_utf8 value.

(** ** The dictionary [db] *)

(** A Python [dict] with [str] keys: its items in insertion order, no key
    twice. *)
Definition dict (V : Type) := list (pystr * V).

Section Dict.
Context {V : Type}.

(** [d.get(k)] *)
Fixpoint dict_get (k : pystr) (d : dict V) : option V :=
  match d with
  | [] => None
  | (k', v) :: d' => if bool_decide (k = k') then Some v else dict_get k d'
  end.

(** [k in d] *)
Definition dict_contains (k : pystr) (d : dict V) : bool :=
  match dict_get k d with Some _ => true | None => false end.

(** [d[k] = v]: a present key keeps its place, a new one goes last. *)
Fixpoint dict_set (k : pystr) (v : V) (d : dict V) : dict V :=
  match d with
  | [] => [(k, v)]
  | (k', v') :: d' =>
      if bool_decide (k = k') then (k, v) :: d' else (k', v') :: dict_set k v d'
  end.

(** [del d[k]] *)
Fixpoint dict_del (k : pystr) (d : dict V) : dict V :=
  match d with
  | [] => []
  | (k', v') :: d' =>
      if bool_decide (k = k') then d' else (k', v') :: dict_del k d'
  end.

(** [list(d.values())] *)
Definition dict_values (d : dict V) : list V := map snd d.

Definition dict_keys (d : dict V) : list pystr := map fst d.

End Dict.

(** One stored record, [new_entry] of the source. *)
Record Entry := {
  e_id : pystr;
  e_value : pystr;
  e_properties : Properties;
  e_created_at : pystr
}.

Definition Db := dict Entry.

(** ** Requests and responses *)

(** What [json.loads] can produce. *)
#[warnings="-register-all"]
Inductive json :=
| JNull
| JBool (b : bool)
| JInt (n : Z)
| JFloat (repr : pystr)
| JStr (s : pystr)
| JList (items : list json)
| JDict (items : dict json).

(** [json.loads(request.body)]: a value, a [JSONDecodeError], or another
    exception (a body that is not text, for one). *)
Inductive loads_result :=
| Loaded (data : json)
| JSONDecodeError
| LoadsFailure.

(** Django's [request.GET]: the pairs of the query string in order.
    [k in request.GET] holds for a key that occurs; [request.GET.get(k)] is
    the last value given for it. *)
Definition QueryDict := list (pystr * pystr).

Fixpoint qd_get (k : pystr) (q : QueryDict) : option pystr :=
  match q with
  | [] => None
  | (k', v) :: q' =>
      match qd_get k q' with
      | Some v' => Some v'
      | None => if bool_decide (k = k') then Some v else None
      end
  end.

Record Request := {
  method : pystr;
  body : loads_result;
  GET : QueryDict;
  (** [datetime.now(timezone.utc).isoformat()] when the request is served *)
  now : pystr
}.

(** The filter dictionaries [filters] and [parsed_filters]: each key is
    absent or bound. *)
Record Filters := {
  f_is_palindrome : option bool;
  f_min_length : option Z;
  f_max_length : option Z;
  f_word_count : option Z;
  f_contains_character : option pystr
}.

Definition no_filters : Filters := {|
  f_is_palindrome := None; f_min_length := None; f_max_length := None;
  f_word_count := None; f_contains_character := None |}.

Definition set_is_palindrome (b : bool) (f : Filters) : Filters := {|
  f_is_palindrome := Some b; f_min_length := f_min_length f;
  f_max_length := f_max_length f; f_word_count := f_word_count f;
  f_contains_character := f_contains_character f |}.

Definition set_min_length (n : Z) (f : Filters) : Filters := {|
  f_is_palindrome := f_is_palindrome f; f_min_length := Some n;
  f_max_length := f_max_length f; f_word_count := f_word_count f;
  f_contains_character := f_contains_character f |}.

Definition set_max_length (n : Z) (f : Filters) : Filters := {|
  f_is_palindrome := f_is_palindrome f; f_min_length := f_min_length f;
  f_max_length := Some n; f_word_count := f_word_count f;
  f_contains_character := f_contains_character f |}.

Definition set_word_count (n : Z) (f : Filters) : Filters := {|
  f_is_palindrome := f_is_palindrome f; f_min_length := f_min_length f;
  f_max_length := f_max_length f; f_word_count := Some n;
  f_contains_character := f_contains_character f |}.

Definition set_contains_character (c : pystr) (f : Filters) : Filters := {|
  f_is_palindrome := f_is_palindrome f; f_min_length := f_min_length f;
  f_max_length := f_max_length f; f_word_count := f_word_count f;
  f_contains_character := Some c |}.

(** [not filters]: the dictionary is empty. *)
Definition filters_empty (f : Filters) : bool :=
  match f with
  | {| f_is_palindrome := None; f_min_length := None; f_max_length := None;
       f_word_count := None; f_contains_character := None |} => true
  | _ => false
  end.

(** The result of [parse_natural_language_query]. *)
Record InterpretedQuery := {
  original : pystr;
  parsed_filters : Filters
}.

(** The JSON documents the views answer with. *)
Inductive Content :=
| ErrorBody (error : string)
| ConflictBody (error : string) (min_length max_length : Z)
| EntryBody (entry : Entry)
| ListBody (data : list Entry) (count : Z) (filters_applied : Filters)
| QueryBody (data : list Entry) (count : Z) (interpreted_query : InterpretedQuery)
| NoContent
| PageNotFound.

Inductive exception :=
| TypeError
| ValueError
| AttributeError
| UnicodeEncodeError
| OtherException.

(** A view returns a response or lets an exception escape. *)
Inductive outcome :=
| Response (status : Z) (content : Content)
| Raised (e : exception).

(** A block of a view that may leave the view at once. *)
Inductive flow (A : Type) :=
| Continue (a : A)
| Return (o : outcome).
Arguments Continue {A} a.
Arguments Return {A} o.

#[global] Instance flow_bind : MBind flow := λ A B k m,
  match m with
  | Continue a => k a
  | Return o => Return o
  end.

Definition run_flow (m : flow outcome) : outcome :=
  match m with
  | Continue o => o
  | Return o => o
  end.

(** ** [int(s)] on a [str] *)

(** [int] first maps every code point to what it stands for.  ASCII white
    space is [\t \n \v \f \r] and the space only; the separators U+001C to
    U+001F, white space for [str.isspace], are not accepted by [int]. *)
Inductive int_token :=
| TSpace
| TDigit (d : N)
| TSign (negative : bool)
| TUnderscore
| TInvalid.

Section Numbers.
Context `{Unicode}.

(** The value of a decimal digit, the class [\d] of [re]. *)
Definition digit_value (c : N) : option N :=
  if is_ascii c
  then if (48 <=? c) && (c <=? 57) then Some (c - 48) else None
  else uc_decimal c.

Definition is_digit (c : N) : bool :=
  match digit_value c with Some _ => true | None => false end.

Definition int_token_of (c : N) : int_token :=
  if is_ascii c then
    if ((9 <=? c) && (c <=? 13)) || (c =? 32) then TSpace
    else if c =? 43 then TSign false
    else if c =? 45 then TSign true
    else if c =? 95 then TUnderscore
    else match digit_value c with Some d => TDigit d | None => TInvalid end
  else if is_space c then TSpace
  else match digit_value c with Some d => TDigit d | None => TInvalid end.

(** Digits, single underscores between them allowed. *)
Fixpoint int_digits (acc : Z) (ts : list int_token) : option Z :=
  match ts with
  | TDigit d :: rest =>
      let acc' := (10 * acc + Z.of_N d)%Z in
      match rest with
      | [] => Some acc'
      | TUnderscore :: rest' => int_digits acc' rest'
      | _ => int_digits acc' rest
      end
  | _ => None
  end.

Fixpoint drop_spaces (ts : list int_token) : list int_token :=
  match ts with
  | TSpace :: ts' => drop_spaces ts'
  | _ => ts
  end.

(** [int(s)]; [None] stands for [ValueError].  The interpreter's limit on
    the number of digits ([sys.set_int_max_str_digits]) is a setting of the
    process and not part of this model. *)
Definition py_int (s : pystr) : option Z :=
  let ts := drop_spaces (map int_token_of s) in
  let ts := rev (drop_spaces (rev ts)) in
  match ts with
  | TSign negative :: ds =>
      (fun n => if negative then (- n)%Z else n) <$> int_digits 0 ds
  | _ => int_digits 0 ts
  end.

(** [s.isdigit()] *)
Definition str_isdigit (s : pystr) : bool :=
  match s with
  | [] => false
  | _ => forallb (fun c => if is_ascii c then is_digit c else uc_isdigit c) s
  end.

(** The class [\w] of [re]: alphanumeric or the underscore. *)
Definition is_word (c : N) : bool :=
  if is_ascii c
  then ((48 <=? c) && (c <=? 57)) || ((65 <=? c) && (c <=? 90)) ||
       ((97 <=? c) && (c <=? 122)) || (c =? 95)
  else uc_alnum c.

End Numbers.

(** ** [re.search] *)

(** The part of the regular expression language the source uses. *)
Inductive regex :=
| Eps
| Lit (c : N)
| Class (p : N -> bool)
| Cat (r1 r2 : regex)
| Alt (r1 r2 : regex)
| Plus (p : N -> bool)
| Group (i : nat) (r : regex)
| WordBoundary.

(** A literal text. *)
Fixpoint lits (s : pystr) : regex :=
  match s with
  | [] => Eps
  | c :: s' => Cat (Lit c) (lits s')
  end.

(** A position in the subject: the text before it, nearest code point
    first, and the text after it. *)
Abbreviation cursor := (pystr * pystr)%type.

(** The text of each group that took part in the match. *)
Abbreviation captures := (gmap nat pystr).

(** The text between two positions of one subject. *)
Definition captured (from to : cursor) : pystr :=
  rev (take (length to.1 - length from.1) to.1).

Section Regex.
Context `{Unicode}.
Context {R : Type}.

(** [\b]: exactly one side of the position is a word character. *)
Definition at_word_boundary (cur : cursor) : bool :=
  xorb (match cur.1 with c :: _ => is_word c | [] => false end)
       (match cur.2 with c :: _ => is_word c | [] => false end).

(** Greedy repetition of a class: take every code point of the class, then
    give them back one at a time until the rest of the pattern matches. *)
Fixpoint star (p : N -> bool) (k : cursor -> option R) (b a : pystr) : option R :=
  match a with
  | c :: a' =>
      if p c
      then match star p k (c :: b) a' with
           | Some r => Some r
           | None => k (b, a)
           end
      else k (b, a)
  | [] => k (b, a)
  end.

(** Backtracking matching at a position: [k] is the rest of the pattern. *)
Fixpoint rmatch (r : regex) (cur : cursor) (caps : captures)
    (k : cursor -> captures -> option R) : option R :=
  match r with
  | Eps => k cur caps
  | Lit c =>
      match cur.2 with
      | x :: a' => if x =? c then k (x :: cur.1, a') caps else None
      | [] => None
      end
  | Class p =>
      match cur.2 with
      | x :: a' => if p x then k (x :: cur.1, a') caps else None
      | [] => None
      end
  | Cat r1 r2 => rmatch r1 cur caps (fun cur' caps' => rmatch r2 cur' caps' k)
  | Alt r1 r2 =>
      match rmatch r1 cur caps k with
      | Some res => Some res
      | None => rmatch r2 cur caps k
      end
  | Plus p =>
      match cur.2 with
      | x :: a' =>
          if p x then star p (fun cur' => k cur' caps) (x :: cur.1) a' else None
      | [] => None
      end
  | Group i r =>
      rmatch r cur caps (fun cur' caps' => k cur' (<[i := captured cur cur']> caps'))
  | WordBoundary => if at_word_boundary cur then k cur caps else None
  end.

End Regex.

Section Search.
Context `{Unicode}.

(** [re.search(r, s)]: the match at the leftmost position that has one;
    the match object is read through [group] only. *)
Fixpoint search_from (r : regex) (b a : pystr) : option captures :=
  match rmatch r (b, a) ∅ (fun _ caps => Some caps) with
  | Some m => Some m
  | None =>
      match a with
      | c :: a' => search_from r (c :: b) a'
      | [] => None
      end
  end.

Definition re_search (r : regex) (s : pystr) : option captures :=
  search_from r [] s.

(** [m.group(i)]: [None] for a group that took no part. *)
Definition group (i : nat) (m : captures) : option pystr := m !! i.

(** [(\b(one|two|three|four|five|single)\b|\d+)\s+word] *)
Definition word_count_re : regex :=
  Cat (Group 1
         (Alt (Cat WordBoundary
                 (Cat (Group 2
                         (Alt (lits (cps "one"))
                         (Alt (lits (cps "two"))
                         (Alt (lits (cps "three"))
                         (Alt (lits (cps "four"))
                         (Alt (lits (cps "five"))
                              (lits (cps "single"))))))))
                      WordBoundary))
              (Plus is_digit)))
      (Cat (Plus is_space) (lits (cps "word"))).

(** [longer than (\d+)] *)
Definition min_length_re : regex :=
  Cat (lits (cps "longer than ")) (Group 1 (Plus is_digit)).

(** [shorter than (\d+)] *)
Definition max_length_re : regex :=
  Cat (lits (cps "shorter than ")) (Group 1 (Plus is_digit)).

(** [exactly (\d+) characters] *)
Definition length_re : regex :=
  Cat (lits (cps "exactly "))
      (Cat (Group 1 (Plus is_digit)) (lits (cps " characters"))).

(** [contain(?:s|ing) the letter ([a-z])] *)
Definition contains_re : regex :=
  Cat (lits (cps "contain"))
      (Cat (Alt (lits (cps "s")) (lits (cps "ing")))
           (Cat (lits (cps " the letter "))
                (Group 1 (Class (fun c => (97 <=? c) && (c <=? 122)))))).

End Search.

(** ** [parse_natural_language_query] *)

Definition word_map : dict Z :=
  [(cps "one", 1%Z); (cps "two", 2%Z); (cps "three", 3%Z);
   (cps "four", 4%Z); (cps "five", 5%Z); (cps "single", 1%Z)].

Definition raise {A} (e : exception) : flow A := Return (Raised e).

Section Parser.
Context `{Unicode}.

(** [int(m.group(1))]: [int(None)] is a [TypeError], a text that is no
    number a [ValueError]. *)
Definition int_of_group (g : option pystr) : flow Z :=
  match g with
  | None => raise TypeError
  | Some s =>
      match py_int s with
      | Some n => Continue n
      | None => raise ValueError
      end
  end.

Definition parse_word_count (query : pystr) (filters : Filters) : flow Filters :=
  match re_search word_count_re query with
  | Some word_count_match =>
      match group 1 word_count_match with
      | None => raise AttributeError
      | Some count_str =>
          match dict_get count_str word_map with
          | Some n => Continue (set_word_count n filters)
          | None =>
              if str_isdigit count_str
              then n ← int_of_group (Some count_str);
                   Continue (set_word_count n filters)
              else Continue filters
          end
      end
  | None => Continue filters
  end.

Definition parse_min_length (query : pystr) (filters : Filters) : flow Filters :=
  match re_search min_length_re query with
  | Some min_length_match =>
      n ← int_of_group (group 1 min_length_match);
      Continue (set_min_length (n + 1) filters)
  | None => Continue filters
  end.

Definition parse_max_length (query : pystr) (filters : Filters) : flow Filters :=
  match re_search max_length_re query with
  | Some max_length_match =>
      n ← int_of_group (group 1 max_length_match);
      Continue (set_max_length (n - 1) filters)
  | None => Continue filters
  end.

Definition parse_length (query : pystr) (filters : Filters) : flow Filters :=
  match re_search length_re query with
  | Some length_match =>
      length ← int_of_group (group 1 length_match);
      Continue (set_max_length length (set_min_length length filters))
  | None => Continue filters
  end.

Definition parse_contains (query : pystr) (filters : Filters) : flow Filters :=
  match re_search contains_re query with
  | Some contains_match =>
      match group 1 contains_match with
      | Some c => Continue (set_contains_character c filters)
      | None => Continue filters
      end
  | None => Continue filters
  end.

(** The function: the seven checks in the order of the source; [Continue
    None] is the [return None] of a query no check recognises. *)
Definition parse_natural_language_query (query : pystr)
    : flow (option InterpretedQuery) :=
  let filters := no_filters in
  let original_query := query in
  let query := str_lower query in
  let filters :=
    if str_contains (cps "palindromic") query || str_contains (cps "palindrome") query
    then set_is_palindrome true filters else filters in
  filters ← parse_word_count query filters;
  filters ← parse_min_length query filters;
  filters ← parse_max_length query filters;
  filters ← parse_length query filters;
  filters ← parse_contains query filters;
  let filters :=
    if str_contains (cps "first vowel") query
    then set_contains_character (cps "a") filters else filters in
  if filters_empty filters then Continue None
  else Continue (Some {| original := original_query; parsed_filters := filters |}).

End Parser.

(** ** The views *)

Definition error (status : Z) (message : string) : outcome :=
  Response status (ErrorBody message).

Definition request_is (verb : string) (request : Request) : bool :=
  str_eqb (method request) (cps verb).

(** ['value' in data]: membership of a dictionary's keys or a list's
    items, the substring test on a text, a [TypeError] on the rest. *)
Definition json_contains (key : pystr) (data : json) : option bool :=
  match data with
  | JDict items => Some (dict_contains key items)
  | JList items =>
      Some (existsb (fun x => match x with JStr s => str_eqb s key | _ => false end) items)
  | JStr s => Some (str_contains key s)
  | JNull | JBool _ | JInt _ | JFloat _ => None
  end.

(** [data['value']] once ['value' in data] holds: only a dictionary can be
    indexed by a text. *)
Definition json_getitem (data : json) (key : pystr) : option json :=
  match data with
  | JDict items => dict_get key items
  | _ => None
  end.

(** [properties["sha256_hash"] = sha256_hash] *)
Definition with_sha256_hash (properties : Properties) (sha256_hash : pystr) : Properties := {|
  p_length := p_length properties;
  p_is_palindrome := p_is_palindrome properties;
  p_unique_characters := p_unique_characters properties;
  p_word_count := p_word_count properties;
  p_character_frequency_map := p_character_frequency_map properties;
  p_sha256_hash := Some sha256_hash |}.

(** The filters of both listing views, each a list comprehension over
    [filtered_data]. *)
Definition keep_is_palindrome (is_palindrome : bool) (data : list Entry) : list Entry :=
  List.filter (fun s => eqb (p_is_palindrome (e_properties s)) is_palindrome) data.

Definition keep_min_length (min_len : Z) (data : list Entry) : list Entry :=
  List.filter (fun s => (min_len <=? p_length (e_properties s))%Z) data.

Definition keep_max_length (max_len : Z) (data : list Entry) : list Entry :=
  List.filter (fun s => (p_length (e_properties s) <=? max_len)%Z) data.

Definition keep_word_count (w_count : Z) (data : list Entry) : list Entry :=
  List.filter (fun s => (p_word_count (e_properties s) =? w_count)%Z) data.

Definition keep_contains (char : pystr) (data : list Entry) : list Entry :=
  List.filter (fun s => str_contains char (e_value s)) data.

Section Views.
Context `{Unicode}.

(** *** [strings_view], POST *)
Definition strings_view_post (db : Db) (request : Request) : outcome * Db :=
  match body request with
  | JSONDecodeError => (error 400 "Invalid JSON format", db)
  | LoadsFailure => (Raised OtherException, db)
  | Loaded data =>
      match json_contains (cps "value") data with
      | None => (Raised TypeError, db)
      | Some false => (error 404 "Missing 'value' field in request body", db)
      | Some true =>
          match json_getitem data (cps "value") with
          | None => (Raised TypeError, db)
          | Some (JStr value) =>
              match get_sha256_hash value with
              | None => (Raised UnicodeEncodeError, db)
              | Some sha256_hash =>
                  if dict_contains sha256_hash db
                  then (error 409 "String already exists in the system", db)
                  else
                    let properties :=
                      with_sha256_hash (compute_string_properties value) sha256_hash in
                    let new_entry := {|
                      e_id := sha256_hash;
                      e_value := value;
                      e_properties := properties;
                      e_created_at := now request |} in
                    (Response 201 (EntryBody new_entry), dict_set sha256_hash new_entry db)
              end
          | Some _ => (error 422 "'value' must be a string", db)
          end
      end
  end.

(** *** [strings_view], GET: the [try] block, one definition per [if] *)

(** [int(request.GET.get(k))] inside the [try]: a [ValueError] is answered
    with status 400. *)
Definition int_param (v : pystr) : flow Z :=
  match py_int v with
  | Some n => Continue n
  | None => Return (error 400 "Invalid query parameter value or type")
  end.

Definition get_is_palindrome (q : QueryDict) (st : Filters * list Entry)
    : flow (Filters * list Entry) :=
  match qd_get (cps "is_palindrome") q with
  | Some v =>
      let is_palindrome := str_eqb (str_lower v) (cps "true") in
      Continue (set_is_palindrome is_palindrome st.1, keep_is_palindrome is_palindrome st.2)
  | None => Continue st
  end.

Definition get_min_length (q : QueryDict) (st : Filters * list Entry)
    : flow (Filters * list Entry) :=
  match qd_get (cps "min_length") q with
  | Some v =>
      min_len ← int_param v;
      Continue (set_min_length min_len st.1, keep_min_length min_len st.2)
  | None => Continue st
  end.

Definition get_max_length (q : QueryDict) (st : Filters * list Entry)
    : flow (Filters * list Entry) :=
  match qd_get (cps "max_length") q with
  | Some v =>
      max_len ← int_param v;
      Continue (set_max_length max_len st.1, keep_max_length max_len st.2)
  | None => Continue st
  end.

Definition get_word_count (q : QueryDict) (st : Filters * list Entry)
    : flow (Filters * list Entry) :=
  match qd_get (cps "word_count") q with
  | Some v =>
      w_count ← int_param v;
      Continue (set_word_count w_count st.1, keep_word_count w_count st.2)
  | None => Continue st
  end.

Definition get_contains_character (q : QueryDict) (st : Filters * list Entry)
    : flow (Filters * list Entry) :=
  match qd_get (cps "contains_character") q with
  | Some char =>
      if negb (length char =? 1)%nat
      then Return (error 400
             "Invalid value for 'contains_character'. Must be a single character.")
      else Continue (set_contains_character char st.1, keep_contains char st.2)
  | None => Continue st
  end.

Definition strings_view_get (db : Db) (request : Request) : outcome :=
  let filters := no_filters in
  let filtered_data := dict_values db in
  run_flow (
    st ← get_is_palindrome (GET request) (filters, filtered_data);
    st ← get_min_length (GET request) st;
    st ← get_max_length (GET request) st;
    st ← get_word_count (GET request) st;
    st ← get_contains_character (GET request) st;
    Continue (Response 200
      (ListBody st.2 (Z.of_nat (length st.2)) st.1))).

Definition strings_view (db : Db) (request : Request) : outcome * Db :=
  if request_is "POST" request then strings_view_post db request
  else if request_is "GET" request then (strings_view_get db request, db)
  else (error 405 "Method not allowed", db).

(** *** [string_detail_view] *)
Definition string_detail_view (db : Db) (request : Request) (string_value : pystr)
    : outcome * Db :=
  match get_sha256_hash string_value with
  | None => (Raised UnicodeEncodeError, db)
  | Some sha256_hash =>
      match dict_get sha256_hash db with
      | None => (error 404 "String does not exist in the system", db)
      | Some entry =>
          if request_is "GET" request then (Response 200 (EntryBody entry), db)
          else if request_is "DELETE" request
          then (Response 204 NoContent, dict_del sha256_hash db)
          else (error 405 "Method not allowed", db)
      end
  end.

(** *** [filter_by_natural_language] *)

(** The five [if]s after the conflict check. *)
Definition apply_parsed_filters (parsed_filters : Filters) (filtered_data : list Entry)
    : list Entry :=
  let filtered_data :=
    match f_is_palindrome parsed_filters with
    | Some true => List.filter (fun s => p_is_palindrome (e_properties s)) filtered_data
    | _ => filtered_data
    end in
  let filtered_data :=
    match f_word_count parsed_filters with
    | Some wc => keep_word_count wc filtered_data
    | None => filtered_data
    end in
  let filtered_data :=
    match f_min_length parsed_filters with
    | Some ml => keep_min_length ml filtered_data
    | None => filtered_data
    end in
  let filtered_data :=
    match f_max_length parsed_filters with
    | Some mxl => keep_max_length mxl filtered_data
    | None => filtered_data
    end in
  match f_contains_character parsed_filters with
  | Some char => keep_contains char filtered_data
  | None => filtered_data
  end.

(** [min_length] and [max_length] are both present and cross. *)
Definition conflicting (parsed_filters : Filters) : option (Z * Z) :=
  match f_min_length parsed_filters, f_max_length parsed_filters with
  | Some mn, Some mx => if (mx <? mn)%Z then Some (mn, mx) else None
  | _, _ => None
  end.

Definition filter_by_natural_language (db : Db) (request : Request) : outcome :=
  if negb (request_is "GET" request) then error 405 "Method not allowed"
  else
    match qd_get (cps "query") (GET request) with
    | None | Some [] => error 400 "Missing 'query' parameter"
    | Some query =>
        match parse_natural_language_query query with
        | Return o => o
        | Continue None => error 400 "Unable to parse natural language query"
        | Continue (Some interpreted_query) =>
            let parsed_filters := parsed_filters interpreted_query in
            match conflicting parsed_filters with
            | Some (mn, mx) =>
                Response 422
                  (ConflictBody "Query parsed but resulted in conflicting filters" mn mx)
            | None =>
                let filtered_data := apply_parsed_filters parsed_filters (dict_values db) in
                Response 200
                  (QueryBody filtered_data (Z.of_nat (length filtered_data)) interpreted_query)
            end
        end
    end.

(** ** [urls.py] *)

Inductive view :=
| StringsView
| FilterView
| DetailView (string_value : pystr).

(** The three patterns in order, on the path below the mount point;
    [<str:string_value>] takes any non-empty text without a slash. *)
Definition resolve (path : pystr) : option view :=
  if str_eqb path [] then Some StringsView
  else if str_eqb path (cps "filter-by-natural-language") then Some FilterView
  else if forallb (fun c => negb (c =? 47)) path then Some (DetailView path)
  else None.

(** One request served: the view the path resolves to, or the framework's
    own 404 page. *)
Definition serve (db : Db) (path : pystr) (request : Request) : outcome * Db :=
  match resolve path with
  | Some StringsView => strings_view db request
  | Some FilterView => (filter_by_natural_language db request, db)
  | Some (DetailView string_value) => string_detail_view db request string_value
  | None => (Response 404 PageNotFound, db)
  end.

(** The store after a sequence of requests. *)
Fixpoint serve_all (db : Db) (requests : list (pystr * Request)) : Db :=
  match requests with
  | [] => db
  | (path, request) :: rest => serve_all (serve db path request).2 rest
  end.

End Views.

(** ** Specification-side definitions *)

(** The number of maximal runs of code points that are not white space,
    counted where each run starts: at a code point that is not white space
    and whose predecessor is white space or missing. *)
Fixpoint word_starts (after_space : bool) (s : pystr) : nat :=
  match s with
  | [] => 0
  | c :: s' =>
      (if after_space && negb (is_space c) then 1 else 0)%nat
      + word_starts (is_space c) s'
  end.

Definition whitespace_delimited_words (s : pystr) : nat := word_starts true s.

(** The number of times a code point occurs in a string. *)
Definition occurrences (c : N) (s : pystr) : nat := count_occ N.eq_dec s c.

(** A record satisfies every filter that is present; the character filter
    names one code point. *)
Definition satisfies (f : Filters) (s : Entry) : bool :=
  match f_is_palindrome f with
  | Some b => eqb (p_is_palindrome (e_properties s)) b
  | None => true
  end &&
  match f_min_length f with
  | Some n => (n <=? p_length (e_properties s))%Z
  | None => true
  end &&
  match f_max_length f with
  | Some n => (p_length (e_properties s) <=? n)%Z
  | None => true
  end &&
  match f_word_count f with
  | Some n => (p_word_count (e_properties s) =? n)%Z
  | None => true
  end &&
  match f_contains_character f with
  | Some [c] => bool_decide (c ∈ e_value s)
  | Some _ => false
  | None => true
  end.

(** The status of a response; an exception that escapes a view has none
    of the view's making. *)
Definition status_of (o : outcome) : option Z :=
  match o with
  | Response status _ => Some status
  | Raised _ => None
  end.

Definition is_client_error (o : outcome) : bool :=
  match o with
  | Response status _ => (400 <=? status)%Z && (status <? 500)%Z
  | Raised _ => false
  end.


(** A request that asks to store [value]: a POST whose body is a JSON
    object with the text [value] under the key ["value"]. *)
Definition body_holds (request : Request) (value : pystr) : Prop :=
  exists items, body request = Loaded (JDict items) /\
                dict_get (cps "value") items = Some (JStr value).

Definition asks_to_store (request : Request) (value : pystr) : Prop :=
  method request = cps "POST" /\ body_holds request value.

(** What holds of every record of the store: it is filed under its id, and
    the id is the SHA-256 digest of the UTF-8 bytes of its value. *)
Definition well_keyed (item : pystr * Entry) : Prop :=
  e_id item.2 = item.1 /\
  exists bytes, encode_utf8 (e_value item.2) = Some bytes /\
                e_id item.2 = SHA256.hexdigest bytes.

(** The decimal text of an integer, as a client writes it in a query
    string: the digits least significant first onto [acc]. *)
Fixpoint decimal_digits (fuel : nat) (n : N) (acc : pystr) : pystr :=
  match fuel with
  | O => acc
  | S fuel' =>
      let acc' := (48 + n mod 10) :: acc in
      if n <? 10 then acc' else decimal_digits fuel' (n / 10) acc'
  end.

Definition decimal_text (z : Z) : pystr :=
  let n := Z.to_N (Z.abs z) in
  (if (z <? 0)%Z then [45] else []) ++
  decimal_digits (S (N.to_nat (N.log2 n))) n [].

(** The query string that asks for the given values, absent ones left
    out. *)
Definition query_string (is_palindrome min_length max_length word_count
    contains_character : option pystr) : QueryDict :=
  let pair key v := match v with Some x => [(cps key, x)] | None => [] end in
  pair "is_palindrome"%string is_palindrome ++ pair "min_length"%string min_length ++
  pair "max_length"%string max_length ++ pair "word_count"%string word_count ++
  pair "contains_character"%string contains_character.

(** The query string of a filter set. *)
Definition query_of (f : Filters) : QueryDict :=
  query_string
    ((fun b : bool => if b then cps "true" else cps "false") <$> f_is_palindrome f)
    (decimal_text <$> f_min_length f) (decimal_text <$> f_max_length f)
    (decimal_text <$> f_word_count f) (f_contains_character f).

(** A filter set whose character filter, when present, is one code
    point. *)
Definition one_character (f : Filters) : Prop :=
  forall char, f_contains_character f = Some char -> length char = 1%nat.

(** A filter applied when its key is present. *)
Definition keep_opt {A} (keep : A -> list Entry -> list Entry) (v : option A)
    (data : list Entry) : list Entry :=
  match v with
  | Some x => keep x data
  | None => data
  end.

Definition keep_contains_opt (v : option pystr) (data : list Entry) : list Entry :=
  keep_opt keep_contains v data.

(** The Unicode tables of an interpreter that knows ASCII only; the
    examples below, whose texts are ASCII, are run with it. *)
Program Definition ascii_only : Unicode := {|
  uc_lower := fun s => s;
  uc_decimal := fun _ => None;
  uc_alnum := fun _ => false;
  uc_isdigit := fun _ => false |}.
Solve All Obligations with discriminate.

(** * Properties *)

(** ** Strings *)

Lemma str_eqb_true (a b : pystr) : str_eqb a b = true <-> a = b.
Proof. unfold str_eqb. apply bool_decide_eq_true. Qed.

Lemma split_go_length (word s : pystr) :
  length (split_go word s) =
  match word with
  | [] => word_starts true s
  | _ => S (word_starts false s)
  end.
Proof.
  revert word. induction s as [|c s IH]; intros word; simpl.
  - destruct word; reflexivity.
  - destruct (is_space c) eqn:Hc; simpl.
    + destruct word; simpl; rewrite IH; reflexivity.
    + rewrite IH. destruct word; reflexivity.
Qed.

Lemma str_split_length (s : pystr) :
  length (str_split s) = whitespace_delimited_words s.
Proof. unfold str_split. rewrite split_go_length. reflexivity. Qed.

(** Every word of [s.split()] is non-empty and free of white space. *)
Lemma split_go_words (word s : pystr) :
  Forall (fun c => is_space c = false) word ->
  Forall (fun w => w <> [] /\ Forall (fun c => is_space c = false) w) (split_go word s).
Proof.
  revert word. induction s as [|c s IH]; intros word Hw; simpl.
  - destruct word as [|x word]; constructor; [|constructor].
    split.
    + intros E. apply (f_equal (@length N)) in E. rewrite length_rev in E. discriminate.
    + apply Forall_rev. exact Hw.
  - destruct (is_space c) eqn:Hc.
    + destruct word as [|x word]; [apply IH; constructor|].
      constructor; [|apply IH; constructor].
      split.
      * intros E. apply (f_equal (@length N)) in E. rewrite length_rev in E. discriminate.
      * apply Forall_rev. exact Hw.
    + apply IH. constructor; assumption.
Qed.

Lemma count_char_fold (s : pystr) (m : gmap N Z) (c : N) :
  fold_left count_char s m !! c =
  match occurrences c s with
  | O => m !! c
  | n => Some (default 0%Z (m !! c) + Z.of_nat n)%Z
  end.
Proof.
  unfold occurrences. revert m. induction s as [|x s IH]; intros m; simpl.
  - reflexivity.
  - rewrite IH. unfold count_char.
    destruct (N.eq_dec x c) as [->|Hne].
    + rewrite lookup_insert_eq. simpl.
      destruct (count_occ N.eq_dec s c); f_equal; lia.
    + rewrite lookup_insert_ne by assumption. reflexivity.
Qed.

Lemma char_frequencies_lookup (s : pystr) (c : N) :
  char_frequencies s !! c =
  if bool_decide (c ∈ s) then Some (Z.of_nat (occurrences c s)) else None.
Proof.
  unfold char_frequencies. rewrite count_char_fold, lookup_empty. simpl.
  unfold occurrences. case_bool_decide as Hin.
  - apply list_elem_of_In, (count_occ_In N.eq_dec) in Hin.
    destruct (count_occ N.eq_dec s c); [lia|reflexivity].
  - destruct (count_occ N.eq_dec s c) eqn:E; [reflexivity|].
    exfalso. apply Hin, list_elem_of_In, (count_occ_In N.eq_dec). lia.
Qed.

Lemma distinct_size (s : pystr) :
  size (list_to_set s : gset N) = length (remove_dups s).
Proof.
  rewrite <- (size_list_to_set (C := gset N) (remove_dups s))
    by apply NoDup_remove_dups.
  f_equal. apply set_eq. intros x.
  rewrite !elem_of_list_to_set, elem_of_remove_dups. reflexivity.
Qed.

Section ComputeProperties.
Context `{Unicode}.

(** C1. For every string, [compute_string_properties] returns its number of
    code points as [length]; [is_palindrome] is true exactly when the
    lower-cased string equals its reverse; [unique_characters] is the
    number of distinct code points; [word_count] is the number of maximal
    runs of code points that are not white space; the frequency map binds
    each code point of the string to the number of times it occurs and
    nothing else.  For the empty string these are 0, true, 0, 0 and the
    empty map. *)
Theorem compute_string_properties_correct (s : pystr) :
  let p := compute_string_properties s in
  p_length p = Z.of_nat (length s) /\
  (p_is_palindrome p = true <-> str_lower s = rev (str_lower s)) /\
  p_unique_characters p = Z.of_nat (length (remove_dups s)) /\
  p_word_count p = Z.of_nat (whitespace_delimited_words s) /\
  (forall c : N,
      p_character_frequency_map p !! c =
      if bool_decide (c ∈ s) then Some (Z.of_nat (occurrences c s)) else None) /\
  compute_string_properties [] =
    {| p_length := 0; p_is_palindrome := true; p_unique_characters := 0;
       p_word_count := 0; p_character_frequency_map := ∅;
       p_sha256_hash := None |}.
Proof.
  simpl. repeat split.
  - apply str_eqb_true.
  - apply str_eqb_true.
  - rewrite distinct_size. reflexivity.
  - rewrite str_split_length. reflexivity.
  - apply char_frequencies_lookup.
Qed.

End ComputeProperties.

(** ** Listing with filters *)

Lemma str_startswith_single (c : N) (v : pystr) :
  str_startswith [c] v = match v with x :: _ => c =? x | [] => false end.
Proof. destruct v; simpl; [reflexivity|apply andb_true_r]. Qed.

Lemma str_contains_single (c : N) (v : pystr) :
  str_contains [c] v = bool_decide (c ∈ v).
Proof.
  induction v as [|x v IH].
  - reflexivity.
  - cbn [str_contains]. rewrite IH, str_startswith_single.
    destruct (N.eqb_spec c x) as [->|Hne]; simpl.
    + symmetry. apply bool_decide_eq_true. left.
    + apply bool_decide_ext. rewrite elem_of_cons. tauto.
Qed.

Lemma filter_twice {A} (p q : A -> bool) (l : list A) :
  List.filter q (List.filter p l) = List.filter (fun x => p x && q x) l.
Proof.
  induction l as [|x l IH]; simpl; [reflexivity|].
  destruct (p x); simpl; [destruct (q x)|]; rewrite IH; reflexivity.
Qed.

Lemma filter_all {A} (l : list A) : List.filter (fun _ => true) l = l.
Proof. induction l; simpl; congruence. Qed.


Ltac split_flow :=
  repeat match goal with
  | |- context [match ?x with Some _ => _ | None => _ end] => destruct x eqn:?
  | |- context [if ?b then _ else _] => destruct b eqn:?
  | |- context [match ?x with [] => _ | _ :: _ => _ end] => destruct x eqn:?
  end.

Lemma keep_all_satisfies (f : Filters) (l : list Entry) :
  (forall char, f_contains_character f = Some char -> length char = 1%nat) ->
  keep_contains_opt (f_contains_character f)
    (keep_opt keep_word_count (f_word_count f)
      (keep_opt keep_max_length (f_max_length f)
        (keep_opt keep_min_length (f_min_length f)
          (keep_opt keep_is_palindrome (f_is_palindrome f) l)))) =
  List.filter (satisfies f) l.
Proof.
  intros Hchar.
  rewrite <- (filter_all l) at 1.
  destruct f as [[b|] [mn|] [mx|] [wc|] [char|]]; simpl in *;
    try (specialize (Hchar char eq_refl);
         destruct char as [|c [|c' char]]; simpl in Hchar; try discriminate Hchar);
    unfold keep_contains_opt, keep_opt, keep_contains, keep_word_count,
      keep_max_length, keep_min_length, keep_is_palindrome;
    rewrite ?filter_twice;
    apply List.filter_ext; intros s; unfold satisfies; simpl;
    rewrite ?str_contains_single; btauto.
Qed.

Lemma filter_elem_of {A} (p : A -> bool) (l : list A) (x : A) :
  x ∈ List.filter p l <-> x ∈ l /\ p x = true.
Proof. rewrite !list_elem_of_In. apply List.filter_In. Qed.

Section Listing.
Context `{Unicode}.

(** The filters the view echoes are the parameters as it read them. *)
Definition read_filters (q : QueryDict) : Filters := {|
  f_is_palindrome :=
    (fun v => str_eqb (str_lower v) (cps "true")) <$> qd_get (cps "is_palindrome") q;
  f_min_length := qd_get (cps "min_length") q ≫= py_int;
  f_max_length := qd_get (cps "max_length") q ≫= py_int;
  f_word_count := qd_get (cps "word_count") q ≫= py_int;
  f_contains_character := qd_get (cps "contains_character") q |}.

Lemma strings_view_get_ok (db : Db) (request : Request)
    (data : list Entry) (count : Z) (filters : Filters) :
  strings_view_get db request = Response 200 (ListBody data count filters) ->
  filters = read_filters (GET request) /\
  (forall char, f_contains_character filters = Some char -> length char = 1%nat) /\
  count = Z.of_nat (length data) /\
  data =
    keep_contains_opt (f_contains_character filters)
      (keep_opt keep_word_count (f_word_count filters)
        (keep_opt keep_max_length (f_max_length filters)
          (keep_opt keep_min_length (f_min_length filters)
            (keep_opt keep_is_palindrome (f_is_palindrome filters) (dict_values db))))).
Proof.
  unfold strings_view_get, read_filters, get_is_palindrome, get_min_length,
    get_max_length, get_word_count, get_contains_character, int_param.
  destruct (qd_get (cps "is_palindrome") (GET request)) as [v1|];
  destruct (qd_get (cps "min_length") (GET request)) as [v2|];
  destruct (qd_get (cps "max_length") (GET request)) as [v3|];
  destruct (qd_get (cps "word_count") (GET request)) as [v4|];
  destruct (qd_get (cps "contains_character") (GET request)) as [v5|];
  cbn;
  try destruct (py_int v2) as [n2|];
  try destruct (py_int v3) as [n3|];
  try destruct (py_int v4) as [n4|];
  try destruct (Nat.eqb_spec (length v5) 1);
  cbn; intros E; try discriminate E;
  injection E as <- <- <-;
  (split; [reflexivity|split; [cbn; congruence|split; reflexivity]]).
Qed.

(** What a 200 answer of the listing holds. *)
Lemma strings_view_get_data (db : Db) (request : Request)
    (data : list Entry) (count : Z) (filters : Filters) :
  strings_view_get db request = Response 200 (ListBody data count filters) ->
  filters = read_filters (GET request) /\
  data = List.filter (satisfies filters) (dict_values db) /\
  count = Z.of_nat (length data).
Proof.
  intros E. apply strings_view_get_ok in E as (Hf & Hchar & Hcount & Hdata).
  rewrite keep_all_satisfies in Hdata by exact Hchar. auto.
Qed.

End Listing.

(** ** Regular expressions: what a match of the engine consists of *)

Ltac invert H := inversion H; subst; clear H.

Section Matching.
Context `{Unicode}.

(** [matches r c0 k0 c1 k1]: the pattern [r] takes the subject from the
    position [c0] to [c1] and the groups from [k0] to [k1]. *)
Inductive matches : regex -> cursor -> captures -> cursor -> captures -> Prop :=
| m_eps cur caps : matches Eps cur caps cur caps
| m_lit c b a caps : matches (Lit c) (b, c :: a) caps (c :: b, a) caps
| m_class p x b a caps :
    p x = true -> matches (Class p) (b, x :: a) caps (x :: b, a) caps
| m_cat r1 r2 c0 k0 c1 k1 c2 k2 :
    matches r1 c0 k0 c1 k1 -> matches r2 c1 k1 c2 k2 ->
    matches (Cat r1 r2) c0 k0 c2 k2
| m_alt_l r1 r2 c0 k0 c1 k1 :
    matches r1 c0 k0 c1 k1 -> matches (Alt r1 r2) c0 k0 c1 k1
| m_alt_r r1 r2 c0 k0 c1 k1 :
    matches r2 c0 k0 c1 k1 -> matches (Alt r1 r2) c0 k0 c1 k1
| m_plus p xs b a caps :
    xs <> [] -> Forall (fun x => p x = true) xs ->
    matches (Plus p) (b, xs ++ a) caps (rev xs ++ b, a) caps
| m_group i r c0 k0 c1 k1 :
    matches r c0 k0 c1 k1 ->
    matches (Group i r) c0 k0 c1 (<[i := captured c0 c1]> k1)
| m_word_boundary cur caps :
    at_word_boundary cur = true -> matches WordBoundary cur caps cur caps.

Lemma star_sound {R} (p : N -> bool) (k : cursor -> option R) (a b : pystr) (res : R) :
  star p k b a = Some res ->
  exists xs a', a = xs ++ a' /\ Forall (fun x => p x = true) xs /\
                k (rev xs ++ b, a') = Some res.
Proof.
  revert b. induction a as [|c a IH]; intros b; simpl.
  - intros E. exists [], []. auto.
  - destruct (p c) eqn:Hc.
    + destruct (star p k (c :: b) a) as [r|] eqn:Es.
      * intros [= ->]. destruct (IH _ Es) as (xs & a' & -> & Hxs & Hk).
        exists (c :: xs), a'. split; [reflexivity|]. split; [constructor; assumption|].
        simpl. rewrite <- app_assoc. exact Hk.
      * intros E. exists [], (c :: a). auto.
    + intros E. exists [], (c :: a). auto.
Qed.

(** The engine only answers with matches: whatever [rmatch] returns was
    returned by the rest of the pattern at the end of a match of [r]. *)
Lemma rmatch_sound {R} (r : regex) :
  forall (cur : cursor) (caps : captures)
         (k : cursor -> captures -> option R) (res : R),
  rmatch r cur caps k = Some res ->
  exists cur' caps', matches r cur caps cur' caps' /\ k cur' caps' = Some res.
Proof.
  induction r as [|c|p|r1 IH1 r2 IH2|r1 IH1 r2 IH2|p|i r IH|];
    intros [b a] caps k res; simpl.
  - intros E. eauto using matches.
  - destruct a as [|x a]; [discriminate|].
    destruct (N.eqb_spec x c) as [->|]; [|discriminate].
    intros E. eauto using matches.
  - destruct a as [|x a]; [discriminate|].
    destruct (p x) eqn:Hp; [|discriminate].
    intros E. eauto using matches.
  - intros E. apply IH1 in E as (c1 & k1 & M1 & E).
    apply IH2 in E as (c2 & k2 & M2 & E). eauto using matches.
  - destruct (rmatch r1 (b, a) caps k) as [res'|] eqn:E1.
    + intros [= ->]. apply IH1 in E1 as (c1 & k1 & M1 & E). eauto using matches.
    + intros E. apply IH2 in E as (c1 & k1 & M1 & E). eauto using matches.
  - destruct a as [|x a]; [discriminate|].
    destruct (p x) eqn:Hp; [|discriminate].
    intros E. apply star_sound in E as (xs & a' & -> & Hxs & E).
    exists (rev (x :: xs) ++ b, a'), caps. split.
    + apply (m_plus p (x :: xs)); [discriminate|constructor; assumption].
    + simpl. rewrite <- app_assoc. exact E.
  - intros E. apply IH in E as (c1 & k1 & M1 & E). eauto using matches.
  - destruct (at_word_boundary (b, a)) eqn:Hb; [|discriminate].
    intros E. eauto using matches.
Qed.

Lemma search_from_sound (r : regex) (a b : pystr) (m : captures) :
  search_from r b a = Some m ->
  exists c0 c1, matches r c0 ∅ c1 m.
Proof.
  revert b. induction a as [|c a IH]; intros b; simpl.
  - destruct (rmatch _ _ _ _) as [m'|] eqn:E; [|discriminate].
    intros [= ->]. apply rmatch_sound in E as (c1 & k1 & M & E').
      simpl in E'. injection E' as ->. eauto.
  - destruct (rmatch _ _ _ _) as [m'|] eqn:E.
    + intros [= ->]. apply rmatch_sound in E as (c1 & k1 & M & E').
      simpl in E'. injection E' as ->. eauto.
    + apply IH.
Qed.

Lemma re_search_sound (r : regex) (s : pystr) (m : captures) :
  re_search r s = Some m -> exists c0 c1, matches r c0 ∅ c1 m.
Proof. apply search_from_sound. Qed.

(** A match consumes a piece of the subject. *)
Lemma matches_consumes r c0 k0 c1 k1 :
  matches r c0 k0 c1 k1 ->
  exists xs, c0.2 = xs ++ c1.2 /\ c1.1 = rev xs ++ c0.1.
Proof.
  induction 1 as [cur caps|c b a caps|p x b a caps Hp
                 |r1 r2 c0 k0 c1 k1 c2 k2 _ (xs & E1 & E2) _ (ys & E3 & E4)
                 |r1 r2 c0 k0 c1 k1 _ IH|r1 r2 c0 k0 c1 k1 _ IH
                 |p xs b a caps Hne Hxs|i r c0 k0 c1 k1 _ IH|cur caps Hb]; simpl.
  - exists []. auto.
  - exists [c]. auto.
  - exists [x]. auto.
  - exists (xs ++ ys). rewrite E1, E3, E4, E2, rev_app_distr, !app_assoc. auto.
  - exact IH.
  - exact IH.
  - exists xs. auto.
  - exact IH.
  - exists []. auto.
Qed.

Lemma captured_consumed (b a b' a' xs : pystr) :
  b' = rev xs ++ b -> captured (b, a) (b', a') = xs.
Proof.
  intros ->. unfold captured. simpl.
  rewrite length_app, length_rev.
  replace (length xs + length b - length b)%nat with (length (rev xs))
    by (rewrite length_rev; lia).
  rewrite take_app_length. apply rev_involutive.
Qed.

Lemma matches_lits s c0 k0 c1 k1 :
  matches (lits s) c0 k0 c1 k1 ->
  k1 = k0 /\ c0.2 = s ++ c1.2 /\ c1.1 = rev s ++ c0.1.
Proof.
  revert c0. induction s as [|x s IH]; intros c0 M; simpl in M.
  - invert M. auto.
  - invert M. match goal with M1 : matches (Lit _) _ _ _ _ |- _ => invert M1 end.
    match goal with M2 : matches (lits _) _ _ _ _ |- _ =>
      apply IH in M2 as (-> & E1 & E2) end.
    simpl in *. rewrite E1, E2, <- app_assoc. auto.
Qed.

(** Inversion, one lemma per construct. *)
Lemma matches_cat_inv r1 r2 c0 k0 c2 k2 :
  matches (Cat r1 r2) c0 k0 c2 k2 ->
  exists c1 k1, matches r1 c0 k0 c1 k1 /\ matches r2 c1 k1 c2 k2.
Proof. intros M. invert M. eauto. Qed.

Lemma matches_alt_inv r1 r2 c0 k0 c1 k1 :
  matches (Alt r1 r2) c0 k0 c1 k1 ->
  matches r1 c0 k0 c1 k1 \/ matches r2 c0 k0 c1 k1.
Proof. intros M. invert M; auto. Qed.

Lemma matches_group_inv i r c0 k0 c1 k1 :
  matches (Group i r) c0 k0 c1 k1 ->
  exists k', matches r c0 k0 c1 k' /\ k1 = <[i := captured c0 c1]> k'.
Proof. intros M. invert M. eauto. Qed.

Lemma matches_plus_inv p c0 k0 c1 k1 :
  matches (Plus p) c0 k0 c1 k1 ->
  k1 = k0 /\ captured c0 c1 <> [] /\
  Forall (fun x => p x = true) (captured c0 c1).
Proof.
  intros M. invert M.
  rewrite (captured_consumed _ _ _ _ xs) by reflexivity. auto.
Qed.

Lemma matches_class_inv p c0 k0 c1 k1 :
  matches (Class p) c0 k0 c1 k1 ->
  k1 = k0 /\ exists x, captured c0 c1 = [x] /\ p x = true.
Proof.
  intros M. invert M.
  rewrite (captured_consumed _ _ _ _ [x]) by reflexivity. eauto.
Qed.

Lemma matches_word_boundary_inv c0 k0 c1 k1 :
  matches WordBoundary c0 k0 c1 k1 -> c1 = c0 /\ k1 = k0.
Proof. intros M. invert M. auto. Qed.

Lemma matches_group_plus i p c0 k0 c1 k1 :
  matches (Group i (Plus p)) c0 k0 c1 k1 ->
  exists xs, k1 = <[i := xs]> k0 /\ xs <> [] /\ Forall (fun x => p x = true) xs.
Proof.
  intros M. apply matches_group_inv in M as (k' & M & ->).
  apply matches_plus_inv in M as (-> & Hne & Hxs). eauto.
Qed.

End Matching.

(** ** Numbers in a query *)

Section Digits.
Context `{Unicode}.

(** The number a sequence of decimal digits denotes. *)
Definition decimal_value (ds : pystr) : Z :=
  fold_left (fun acc c => (10 * acc + Z.of_N (default 0%N (digit_value c)))%Z) ds 0%Z.

Lemma digit_token (c : N) :
  is_digit c = true ->
  exists d, digit_value c = Some d /\ int_token_of c = TDigit d /\ d < 10.
Proof.
  unfold is_digit, int_token_of, digit_value.
  destruct (is_ascii c) eqn:Ha.
  - destruct (N.leb_spec 48 c); simpl; [|discriminate].
    destruct (N.leb_spec c 57); simpl; [|discriminate].
    intros _. exists (c - 48).
    destruct (N.leb_spec 9 c); [|lia].
    destruct (N.leb_spec c 13); [lia|]. simpl.
    destruct (N.eqb_spec c 32); [lia|].
    destruct (N.eqb_spec c 43); [lia|].
    destruct (N.eqb_spec c 45); [lia|].
    destruct (N.eqb_spec c 95); [lia|].
    repeat split. lia.
  - destruct (uc_decimal c) as [d|] eqn:Hd; [|discriminate].
    intros _. exists d. rewrite (uc_decimal_not_space c d Hd).
    repeat split. exact (uc_decimal_lt c d Hd).
Qed.

Lemma int_digits_digits (ds : pystr) (acc : Z) :
  ds <> [] -> Forall (fun c => is_digit c = true) ds ->
  int_digits acc (map int_token_of ds) =
  Some (fold_left (fun acc c => (10 * acc + Z.of_N (default 0%N (digit_value c)))%Z) ds acc).
Proof.
  intros Hne Hds. revert acc. induction Hds as [|c ds Hc Hds IH]; [done|].
  intros acc. destruct (digit_token c Hc) as (d & Hd & Ht & _).
  cbn [map int_digits fold_left]. rewrite Ht, Hd. cbn [default].
  destruct ds as [|c' ds]; [reflexivity|].
  rewrite <- IH by discriminate.
  apply Forall_inv in Hds. destruct (digit_token c' Hds) as (d' & _ & Ht' & _).
  cbn [map]. rewrite Ht'. reflexivity.
Qed.

Lemma drop_spaces_digit (ts : list int_token) :
  match ts with TDigit _ :: _ => True | _ => False end -> drop_spaces ts = ts.
Proof. destruct ts as [|[] ts]; simpl; tauto. Qed.

(** [int] accepts every non-empty sequence of decimal digits and returns
    the number it denotes. *)
Lemma py_int_digits (ds : pystr) :
  ds <> [] -> Forall (fun c => is_digit c = true) ds ->
  py_int ds = Some (decimal_value ds).
Proof.
  intros Hne Hds. unfold py_int, decimal_value.
  assert (Hfirst : forall l, l <> [] -> Forall (fun c => is_digit c = true) l ->
            match map int_token_of l with TDigit _ :: _ => True | _ => False end).
  { intros [|c l] Hl Hf; [done|]. apply Forall_inv in Hf.
    destruct (digit_token c Hf) as (d & _ & Ht & _). simpl. rewrite Ht. exact I. }
  rewrite (drop_spaces_digit (map int_token_of ds)) by (apply Hfirst; assumption).
  rewrite <- map_rev.
  rewrite (drop_spaces_digit (map int_token_of (rev ds))).
  2:{ apply Hfirst.
      - intros E. apply Hne. apply (f_equal (@rev N)) in E.
        rewrite rev_involutive in E. exact E.
      - apply Forall_rev. exact Hds. }
  rewrite map_rev, rev_involutive.
  pose proof (Hfirst ds Hne Hds) as Hf.
  rewrite <- (int_digits_digits ds 0 Hne Hds).
  destruct (map int_token_of ds) as [|[] ts]; try contradiction. reflexivity.
Qed.

Lemma decimal_value_nonneg (ds : pystr) : (0 <= decimal_value ds)%Z.
Proof.
  unfold decimal_value.
  assert (G : forall acc, (0 <= acc)%Z ->
    (0 <= fold_left (fun acc c => 10 * acc + Z.of_N (default 0%N (digit_value c))) ds acc)%Z).
  { induction ds as [|c ds IH]; intros acc Hacc; simpl; [exact Hacc|].
    apply IH. lia. }
  apply G. lia.
Qed.

End Digits.

(** ** The groups of the five patterns *)

Section Groups.
Context `{Unicode}.

Lemma captured_lits s c0 k0 c1 k1 :
  matches (lits s) c0 k0 c1 k1 -> captured c0 c1 = s.
Proof.
  intros M. apply matches_lits in M as (_ & _ & E).
  destruct c0, c1. apply captured_consumed. exact E.
Qed.

Lemma min_length_group (q : pystr) (m : captures) :
  re_search min_length_re q = Some m ->
  exists ds, group 1 m = Some ds /\ ds <> [] /\ Forall (fun c => is_digit c = true) ds.
Proof.
  intros E. apply re_search_sound in E as (c0 & c1 & M).
  apply matches_cat_inv in M as (c & k & M1 & M2).
  apply matches_lits in M1 as (-> & _).
  apply matches_group_plus in M2 as (ds & -> & Hne & Hds).
  exists ds. unfold group. rewrite lookup_insert_eq. auto.
Qed.

Lemma max_length_group (q : pystr) (m : captures) :
  re_search max_length_re q = Some m ->
  exists ds, group 1 m = Some ds /\ ds <> [] /\ Forall (fun c => is_digit c = true) ds.
Proof.
  intros E. apply re_search_sound in E as (c0 & c1 & M).
  apply matches_cat_inv in M as (c & k & M1 & M2).
  apply matches_lits in M1 as (-> & _).
  apply matches_group_plus in M2 as (ds & -> & Hne & Hds).
  exists ds. unfold group. rewrite lookup_insert_eq. auto.
Qed.

Lemma length_group (q : pystr) (m : captures) :
  re_search length_re q = Some m ->
  exists ds, group 1 m = Some ds /\ ds <> [] /\ Forall (fun c => is_digit c = true) ds.
Proof.
  intros E. apply re_search_sound in E as (c0 & c1 & M).
  apply matches_cat_inv in M as (c & k & M1 & M2).
  apply matches_lits in M1 as (-> & _).
  apply matches_cat_inv in M2 as (c' & k' & M2 & M3).
  apply matches_lits in M3 as (-> & _).
  apply matches_group_plus in M2 as (ds & -> & Hne & Hds).
  exists ds. unfold group. rewrite lookup_insert_eq. auto.
Qed.

Lemma contains_group (q : pystr) (m : captures) :
  re_search contains_re q = Some m ->
  exists c, group 1 m = Some [c] /\ 97 <= c <= 122.
Proof.
  intros E. apply re_search_sound in E as (c0 & c1 & M).
  apply matches_cat_inv in M as (ca & ka & _ & M).
  apply matches_cat_inv in M as (cb & kb & _ & M).
  apply matches_cat_inv in M as (cc & kc & _ & M).
  apply matches_group_inv in M as (k' & M & ->).
  apply matches_class_inv in M as (-> & x & -> & Hx).
  exists x. unfold group. rewrite lookup_insert_eq.
  split; [reflexivity|].
  apply andb_true_iff in Hx as [?%N.leb_le ?%N.leb_le]. lia.
Qed.

Lemma word_count_group (q : pystr) (m : captures) :
  re_search word_count_re q = Some m ->
  exists cs, group 1 m = Some cs /\
    (is_Some (dict_get cs word_map) \/
     (cs <> [] /\ Forall (fun c => is_digit c = true) cs)).
Proof.
  intros E. apply re_search_sound in E as (c0 & c1 & M).
  apply matches_cat_inv in M as (ca & ka & M1 & M2).
  apply matches_cat_inv in M2 as (cb & kb & M2 & M3).
  apply matches_lits in M3 as (-> & _).
  apply matches_plus_inv in M2 as (-> & _).
  apply matches_group_inv in M1 as (k' & M & ->).
  exists (captured c0 ca). unfold group. rewrite lookup_insert_eq.
  split; [reflexivity|].
  apply matches_alt_inv in M as [M|M].
  - left.
    apply matches_cat_inv in M as (cw & kw & Mb & M).
    apply matches_word_boundary_inv in Mb as (-> & ->).
    apply matches_cat_inv in M as (cx & kx & M & Mb).
    apply matches_word_boundary_inv in Mb as (-> & ->).
    apply matches_group_inv in M as (k2 & M & _).
    repeat (apply matches_alt_inv in M as [M|M]);
      rewrite (captured_lits _ _ _ _ _ M); vm_compute; eauto.
  - right. apply matches_plus_inv in M as (_ & Hne & Hds). auto.
Qed.

End Groups.

(** ** The parser never raises *)

Section ParserTotal.
Context `{Unicode}.

(** The number in group 1 of the leftmost match of a pattern. *)
Definition number_in (r : regex) (query : pystr) : option Z :=
  m ← re_search r query; ds ← group 1 m; Some (decimal_value ds).

(** The count the second check reads off the leftmost count phrase. *)
Definition count_in (query : pystr) : option Z :=
  m ← re_search word_count_re query;
  count_str ← group 1 m;
  match dict_get count_str word_map with
  | Some n => Some n
  | None => if str_isdigit count_str then Some (decimal_value count_str) else None
  end.

Definition update {A} (set : A -> Filters -> Filters) (v : option A) (f : Filters)
    : Filters :=
  match v with
  | Some x => set x f
  | None => f
  end.

Lemma parse_word_count_eq (query : pystr) (f : Filters) :
  parse_word_count query f = Continue (update set_word_count (count_in query) f).
Proof.
  unfold parse_word_count, count_in.
  destruct (re_search word_count_re query) as [m|] eqn:E; [|reflexivity].
  cbn [mbind option_bind].
  destruct (word_count_group _ _ E) as (cs & -> & Hcs).
  cbn [mbind option_bind].
  destruct (dict_get cs word_map) as [n|] eqn:Ew; [reflexivity|].
  destruct Hcs as [[n Hn]|[Hne Hds]]; [congruence|].
  unfold int_of_group. rewrite (py_int_digits cs Hne Hds).
  destruct (str_isdigit cs); reflexivity.
Qed.

Lemma int_of_group_digits (r : regex) (query : pystr) (m : captures) :
  re_search r query = Some m ->
  (exists ds, group 1 m = Some ds /\ ds <> [] /\ Forall (fun c => is_digit c = true) ds) ->
  exists n, number_in r query = Some n /\ int_of_group (group 1 m) = Continue n.
Proof.
  intros E (ds & Hg & Hne & Hds). unfold number_in. rewrite E. cbn.
  rewrite Hg. cbn. rewrite (py_int_digits ds Hne Hds). eauto.
Qed.

Lemma parse_min_length_eq (query : pystr) (f : Filters) :
  parse_min_length query f =
  Continue (update set_min_length ((fun n => n + 1)%Z <$> number_in min_length_re query) f).
Proof.
  unfold parse_min_length.
  destruct (re_search min_length_re query) as [m|] eqn:E.
  - destruct (int_of_group_digits _ _ _ E (min_length_group _ _ E)) as (n & -> & ->).
    reflexivity.
  - unfold number_in. rewrite E. reflexivity.
Qed.

Lemma parse_max_length_eq (query : pystr) (f : Filters) :
  parse_max_length query f =
  Continue (update set_max_length ((fun n => n - 1)%Z <$> number_in max_length_re query) f).
Proof.
  unfold parse_max_length.
  destruct (re_search max_length_re query) as [m|] eqn:E.
  - destruct (int_of_group_digits _ _ _ E (max_length_group _ _ E)) as (n & -> & ->).
    reflexivity.
  - unfold number_in. rewrite E. reflexivity.
Qed.

Lemma parse_length_eq (query : pystr) (f : Filters) :
  parse_length query f =
  Continue (update (fun n f => set_max_length n (set_min_length n f))
                   (number_in length_re query) f).
Proof.
  unfold parse_length.
  destruct (re_search length_re query) as [m|] eqn:E.
  - destruct (int_of_group_digits _ _ _ E (length_group _ _ E)) as (n & -> & ->).
    reflexivity.
  - unfold number_in. rewrite E. reflexivity.
Qed.

Lemma parse_contains_eq (query : pystr) (f : Filters) :
  parse_contains query f =
  Continue (update set_contains_character (re_search contains_re query ≫= group 1) f).
Proof.
  unfold parse_contains.
  destruct (re_search contains_re query) as [m|] eqn:E; [|reflexivity].
  cbn [mbind option_bind].
  destruct (contains_group _ _ E) as (c & -> & _). reflexivity.
Qed.

(** The filters of a lower-cased query: the seven checks as assignments. *)
Definition interpret (query : pystr) : Filters :=
  let f := no_filters in
  let f :=
    if str_contains (cps "palindromic") query || str_contains (cps "palindrome") query
    then set_is_palindrome true f else f in
  let f := update set_word_count (count_in query) f in
  let f := update set_min_length ((fun n => n + 1)%Z <$> number_in min_length_re query) f in
  let f := update set_max_length ((fun n => n - 1)%Z <$> number_in max_length_re query) f in
  let f := update (fun n f => set_max_length n (set_min_length n f))
                  (number_in length_re query) f in
  let f := update set_contains_character (re_search contains_re query ≫= group 1) f in
  if str_contains (cps "first vowel") query
  then set_contains_character (cps "a") f else f.

(** No query makes [parse_natural_language_query] raise: it returns
    [None] or the original text with the filters read off it. *)
Lemma parse_natural_language_query_total (query : pystr) :
  parse_natural_language_query query =
  Continue (if filters_empty (interpret (str_lower query)) then None
            else Some {| original := query;
                         parsed_filters := interpret (str_lower query) |}).
Proof.
  unfold parse_natural_language_query.
  rewrite parse_word_count_eq. cbn [mbind flow_bind].
  rewrite parse_min_length_eq. cbn [mbind flow_bind].
  rewrite parse_max_length_eq. cbn [mbind flow_bind].
  rewrite parse_length_eq. cbn [mbind flow_bind].
  rewrite parse_contains_eq. cbn [mbind flow_bind].
  unfold interpret.
  destruct (filters_empty _); reflexivity.
Qed.


End ParserTotal.

(** ** The natural-language endpoint *)

Section NaturalLanguage.
Context `{Unicode}.



(** The filters the parser builds: the palindrome flag is never false and
    the character filter is one code point. *)
Lemma interpret_shape (query : pystr) :
  f_is_palindrome (interpret query) <> Some false /\ one_character (interpret query).
Proof.
  unfold interpret, one_character.
  destruct (re_search contains_re query) as [m|] eqn:E; cbn [mbind option_bind].
  - destruct (contains_group _ _ E) as (c & -> & _).
    destruct (str_contains (cps "palindromic") query || str_contains (cps "palindrome") query),
      (count_in query), (number_in min_length_re query), (number_in max_length_re query),
      (number_in length_re query), (str_contains (cps "first vowel") query);
      simpl; (split; [discriminate|intros char [= <-]; reflexivity]).
  - destruct (str_contains (cps "palindromic") query || str_contains (cps "palindrome") query),
      (count_in query), (number_in min_length_re query), (number_in max_length_re query),
      (number_in length_re query), (str_contains (cps "first vowel") query);
      simpl; (split; [discriminate|intros char [= <-]; reflexivity]).
Qed.

Lemma apply_parsed_filters_satisfies (f : Filters) (l : list Entry) :
  f_is_palindrome f <> Some false -> one_character f ->
  apply_parsed_filters f l = List.filter (satisfies f) l.
Proof.
  intros Hp Hchar. unfold apply_parsed_filters.
  rewrite <- (filter_all l).
  destruct f as [[[|]|] [mn|] [mx|] [wc|] [char|]]; simpl in *; try congruence;
    try (specialize (Hchar char eq_refl);
         destruct char as [|c [|c' char]]; simpl in Hchar; try discriminate Hchar);
    unfold keep_contains, keep_word_count, keep_max_length, keep_min_length;
    rewrite ?filter_twice;
    apply List.filter_ext; intros s; unfold satisfies; simpl;
    rewrite ?str_contains_single;
    destruct (p_is_palindrome (e_properties s)); simpl; btauto.
Qed.

(** X2. Filtering by a query is conjunctive as well: a 200 answer carries the
    filters the parser read and exactly the stored records, in their
    order, that satisfy all of them. *)
Theorem natural_language_filters (db : Db) (request : Request)
    (data : list Entry) (count : Z) (interpreted : InterpretedQuery) :
  filter_by_natural_language db request =
    Response 200 (QueryBody data count interpreted) ->
  (exists query, qd_get (cps "query") (GET request) = Some query /\
                 parse_natural_language_query query = Continue (Some interpreted)) /\
  data = List.filter (satisfies (parsed_filters interpreted)) (dict_values db) /\
  count = Z.of_nat (length data).
Proof.
  unfold filter_by_natural_language.
  destruct (negb (request_is "GET" request)); [discriminate|].
  destruct (qd_get (cps "query") (GET request)) as [[|c query]|]; try discriminate.
  rewrite parse_natural_language_query_total.
  destruct (filters_empty _) eqn:Hempty; [discriminate|].
  cbv zeta. cbn [parsed_filters].
  destruct (conflicting _) as [[mn mx]|]; [discriminate|].
  destruct (interpret_shape (str_lower (c :: query))) as [Hp Hchar].
  rewrite apply_parsed_filters_satisfies by assumption.
  intros [= <- <- <-]. split; [|split; reflexivity].
  exists (c :: query). split; [reflexivity|].
  rewrite parse_natural_language_query_total, Hempty. reflexivity.
Qed.


End NaturalLanguage.

(** ** The dictionary *)

Section DictFacts.
Context {V : Type}.
Implicit Types (d : dict V) (k : pystr) (v : V).

Lemma dict_contains_true k d :
  dict_contains k d = true <-> k ∈ dict_keys d.
Proof.
  unfold dict_contains, dict_keys.
  induction d as [|[k' v'] d IH]; simpl.
  - split; [discriminate|]. intros Hin. inversion Hin.
  - case_bool_decide as Hk.
    + subst. split; [intros _; left|reflexivity].
    + rewrite IH, elem_of_cons. split; [auto|]. intros [?|?]; [contradiction|assumption].
Qed.

Lemma dict_contains_false k d :
  dict_contains k d = false <-> k ∉ dict_keys d.
Proof.
  rewrite <- dict_contains_true. destruct (dict_contains k d); split; done.
Qed.

Lemma dict_get_elem_of k v d : dict_get k d = Some v -> (k, v) ∈ d.
Proof.
  induction d as [|[k' v'] d IH]; simpl; [discriminate|].
  case_bool_decide as Hk.
  - intros [= ->]. subst. left.
  - intros E. right. auto.
Qed.

(** Assigning to a key that is absent appends the item. *)
Lemma dict_set_new k v d :
  dict_contains k d = false -> dict_set k v d = d ++ [(k, v)].
Proof.
  unfold dict_contains.
  induction d as [|[k' v'] d IH]; simpl; [reflexivity|].
  case_bool_decide as Hk; [discriminate|].
  intros E. rewrite IH by exact E. reflexivity.
Qed.

Lemma dict_get_set k v d : dict_get k (dict_set k v d) = Some v.
Proof.
  induction d as [|[k' v'] d IH]; simpl.
  - rewrite bool_decide_eq_true_2; reflexivity.
  - case_bool_decide as Hk; simpl.
    + rewrite bool_decide_eq_true_2; reflexivity.
    + rewrite bool_decide_eq_false_2 by exact Hk. exact IH.
Qed.

Lemma dict_del_sublist d k : sublist (dict_del k d) d.
Proof.
  induction d as [|[k' v'] d IH]; simpl; [constructor|].
  case_bool_decide.
  - apply sublist_cons, reflexivity.
  - apply sublist_skip, IH.
Qed.

Lemma dict_del_keys_sublist d k : sublist (dict_keys (dict_del k d)) (dict_keys d).
Proof.
  induction d as [|[k' v'] d IH]; simpl; [constructor|].
  case_bool_decide.
  - apply sublist_cons, reflexivity.
  - apply sublist_skip, IH.
Qed.

(** Deleting a key removes it when no key occurs twice. *)
Lemma dict_del_absent k d :
  NoDup (dict_keys d) -> dict_contains k (dict_del k d) = false.
Proof.
  intros Hnd. apply dict_contains_false. unfold dict_keys in *.
  induction d as [|[k' v'] d IH]; simpl in *; [apply not_elem_of_nil|].
  apply NoDup_cons in Hnd as [Hk' Hnd].
  case_bool_decide as Hk.
  - subst. exact Hk'.
  - simpl. rewrite not_elem_of_cons. auto.
Qed.

Lemma dict_del_length k v d :
  dict_get k d = Some v -> S (length (dict_del k d)) = length d.
Proof.
  induction d as [|[k' v'] d IH]; simpl; [discriminate|].
  case_bool_decide; [reflexivity|].
  intros E. simpl. rewrite IH by exact E. reflexivity.
Qed.

End DictFacts.

(** ** The store *)

Section Store.
Context `{Unicode}.

(** The store is well formed: no key twice, every record well keyed. *)
Definition well_formed (db : Db) : Prop :=
  NoDup (dict_keys db) /\ Forall well_keyed db.

Lemma well_formed_empty : well_formed [].
Proof. split; constructor. Qed.

Lemma well_formed_del (db : Db) (k : pystr) :
  well_formed db -> well_formed (dict_del k db).
Proof.
  intros [Hnd Hall]. split.
  - eapply sublist_NoDup; [exact Hnd|]. apply dict_del_keys_sublist.
  - rewrite Forall_forall in *. intros item Hin. apply Hall.
    eapply elem_of_sublist; [exact Hin|]. apply dict_del_sublist.
Qed.

(** The record a successful POST builds. *)
Definition entry_of (value sha256_hash created_at : pystr) : Entry := {|
  e_id := sha256_hash;
  e_value := value;
  e_properties := with_sha256_hash (compute_string_properties value) sha256_hash;
  e_created_at := created_at |}.

(** What POST does to the store, in every case: nothing, or it appends the
    record of a value whose digest was not a key. *)
Lemma strings_view_post_cases (db : Db) (request : Request) :
  (strings_view_post db request).2 = db /\
  status_of (strings_view_post db request).1 <> Some 201%Z \/
  exists value sha256_hash,
    body_holds request value /\
    get_sha256_hash value = Some sha256_hash /\
    dict_contains sha256_hash db = false /\
    strings_view_post db request =
      (Response 201 (EntryBody (entry_of value sha256_hash (now request))),
       db ++ [(sha256_hash, entry_of value sha256_hash (now request))]).
Proof.
  unfold strings_view_post, body_holds.
  destruct (body request) as [data| |]; try (left; split; [reflexivity|discriminate]).
  destruct (json_contains (cps "value") data) as [[|]|];
    try (left; split; [reflexivity|discriminate]).
  destruct (json_getitem data (cps "value")) as [[| | | |value| |]|] eqn:Eg;
    try (left; split; [reflexivity|discriminate]).
  destruct (get_sha256_hash value) as [sha256_hash|] eqn:Eh;
    try (left; split; [reflexivity|discriminate]).
  destruct (dict_contains sha256_hash db) eqn:Ec;
    try (left; split; [reflexivity|discriminate]).
  right. exists value, sha256_hash.
  destruct data; try discriminate Eg. simpl in Eg.
  split; [eauto|]. split; [exact Eh|]. split; [exact Ec|].
  rewrite dict_set_new by exact Ec. reflexivity.
Qed.

(** A POST that asks to store [value]. *)
Lemma strings_view_post_value (db : Db) (request : Request) (value : pystr) :
  body_holds request value ->
  strings_view_post db request =
  match get_sha256_hash value with
  | None => (Raised UnicodeEncodeError, db)
  | Some sha256_hash =>
      if dict_contains sha256_hash db
      then (error 409 "String already exists in the system", db)
      else (Response 201 (EntryBody (entry_of value sha256_hash (now request))),
            dict_set sha256_hash (entry_of value sha256_hash (now request)) db)
  end.
Proof.
  intros (items & Hb & Hv). unfold strings_view_post. rewrite Hb. simpl.
  unfold dict_contains at 1. rewrite Hv. reflexivity.
Qed.

Lemma well_formed_post (db : Db) (request : Request) :
  well_formed db -> well_formed (strings_view_post db request).2.
Proof.
  intros Hwf.
  destruct (strings_view_post_cases db request)
    as [[-> _]|(value & h & _ & Hh & Hc & ->)]; [exact Hwf|].
  destruct Hwf as [Hnd Hall]. simpl. split.
  - unfold dict_keys in *. rewrite map_app. simpl.
    apply NoDup_app. split; [exact Hnd|]. split.
    + intros k Hk Hk'. apply list_elem_of_singleton in Hk'. subst.
      apply dict_contains_false in Hc. contradiction.
    + apply NoDup_singleton.
  - apply Forall_app. split; [exact Hall|].
    constructor; [|constructor]. split; [reflexivity|]. simpl.
    unfold get_sha256_hash in Hh.
    destruct (encode_utf8 value) as [bytes|]; [|discriminate].
    injection Hh as <-. eauto.
Qed.

End Store.

(** ** Serving requests *)

Section Serving.
Context `{Unicode}.

Lemma request_is_true (verb : string) (request : Request) :
  request_is verb request = true <-> method request = cps verb.
Proof. apply str_eqb_true. Qed.

Lemma request_is_false (verb : string) (request : Request) :
  request_is verb request = false <-> method request <> cps verb.
Proof. unfold request_is, str_eqb. apply bool_decide_eq_false. Qed.

(** The natural-language endpoint always answers, with one of four
    statuses. *)
Lemma filter_by_natural_language_status (db : Db) (request : Request) :
  let status := status_of (filter_by_natural_language db request) in
  status = Some 405%Z \/ status = Some 400%Z \/ status = Some 422%Z \/
  status = Some 200%Z.
Proof.
  unfold filter_by_natural_language.
  destruct (negb (request_is "GET" request)); [auto|].
  destruct (qd_get (cps "query") (GET request)) as [[|c query]|]; simpl; auto.
  rewrite parse_natural_language_query_total.
  destruct (filters_empty _); simpl; auto.
  destruct (conflicting _) as [[mn mx]|]; simpl; auto.
Qed.

(** The store after one request: unchanged, or one record appended by a
    POST to the collection answered 201, or one record removed by a DELETE
    of a stored value answered 204. *)
Lemma serve_cases (db : Db) (path : pystr) (request : Request) :
  (serve db path request).2 = db /\
  status_of (serve db path request).1 <> Some 201%Z /\
  status_of (serve db path request).1 <> Some 204%Z \/
  (method request = cps "POST" /\ path = [] /\
   exists value sha256_hash,
     body_holds request value /\
     get_sha256_hash value = Some sha256_hash /\
     dict_contains sha256_hash db = false /\
     serve db path request =
       (Response 201 (EntryBody (entry_of value sha256_hash (now request))),
        db ++ [(sha256_hash, entry_of value sha256_hash (now request))])) \/
  (method request = cps "DELETE" /\
   exists sha256_hash deleted,
     resolve path = Some (DetailView path) /\
     get_sha256_hash path = Some sha256_hash /\
     dict_get sha256_hash db = Some deleted /\
     serve db path request = (Response 204 NoContent, dict_del sha256_hash db)).
Proof.
  unfold serve, resolve.
  destruct (str_eqb path []) eqn:E0.
  { apply str_eqb_true in E0. subst path. unfold strings_view.
    destruct (request_is "POST" request) eqn:Ep.
    - destruct (strings_view_post_cases db request)
        as [[E1 E2]|(value & h & Hb & Hh & Hc & E)].
      + left. split; [exact E1|]. split; [exact E2|].
        unfold strings_view_post.
        repeat match goal with
        | |- context [match ?x with _ => _ end] => destruct x; simpl; try discriminate
        end.
      + right. left. apply request_is_true in Ep. split; [exact Ep|].
        split; [reflexivity|]. exists value, h. auto.
    - left. destruct (request_is "GET" request); simpl;
        [|repeat split; discriminate].
      split; [reflexivity|].
      unfold strings_view_get, get_is_palindrome, get_min_length, get_max_length,
        get_word_count, get_contains_character, int_param.
      repeat match goal with
      | |- context [match ?x with _ => _ end] => destruct x; simpl; try discriminate
      end; split; discriminate. }
  destruct (str_eqb path (cps "filter-by-natural-language")) eqn:E1.
  { left. simpl. split; [reflexivity|].
    destruct (filter_by_natural_language_status db request) as [E|[E|[E|E]]];
      rewrite E; split; discriminate. }
  destruct (forallb _ path) eqn:E2; [|left; simpl; repeat split; discriminate].
  unfold string_detail_view.
  destruct (get_sha256_hash path) as [h|] eqn:Eh;
    [|left; simpl; repeat split; discriminate].
  destruct (dict_get h db) as [entry|] eqn:Eg;
    [|left; simpl; repeat split; discriminate].
  destruct (request_is "GET" request); [left; simpl; repeat split; discriminate|].
  destruct (request_is "DELETE" request) eqn:Ed;
    [|left; simpl; repeat split; discriminate].
  right. right. apply request_is_true in Ed. split; [exact Ed|].
  exists h, entry. auto.
Qed.

Lemma well_formed_serve (db : Db) (path : pystr) (request : Request) :
  well_formed db -> well_formed (serve db path request).2.
Proof.
  intros Hwf.
  destruct (serve_cases db path request)
    as [(-> & _)|[(Hm & -> & value & h & Hb & Hh & Hc & E)|(Hm & h & e & _ & _ & _ & ->)]].
  - exact Hwf.
  - unfold serve, resolve, strings_view in *. simpl in *.
    unfold request_is in *. rewrite Hm in *. simpl in *.
    apply well_formed_post. exact Hwf.
  - simpl. apply well_formed_del. exact Hwf.
Qed.

Lemma well_formed_serve_all (requests : list (pystr * Request)) (db : Db) :
  well_formed db -> well_formed (serve_all db requests).
Proof.
  revert db. induction requests as [|[path request] rest IH]; intros db Hwf; simpl.
  - exact Hwf.
  - apply IH, well_formed_serve, Hwf.
Qed.

Lemma well_keyed_ids (db : Db) :
  Forall well_keyed db -> map e_id (dict_values db) = dict_keys db.
Proof.
  induction 1 as [|[k e] db [Hk _] _ IH]; simpl; [reflexivity|].
  simpl in Hk. rewrite Hk. f_equal. exact IH.
Qed.

(** C6. After any sequence of requests served from the empty store, every
    record is filed under its id, the id is the hexadecimal SHA-256 digest
    of the UTF-8 bytes of the record's value, and no two records have the
    same id. *)
Theorem ids_are_digests_and_unique (requests : list (pystr * Request)) :
  let db := serve_all [] requests in
  Forall well_keyed db /\
  (forall entry, entry ∈ dict_values db ->
     get_sha256_hash (e_value entry) = Some (e_id entry)) /\
  NoDup (map e_id (dict_values db)).
Proof.
  simpl. destruct (well_formed_serve_all requests [] well_formed_empty) as [Hnd Hall].
  split; [exact Hall|]. split.
  - intros entry Hin. unfold dict_values in Hin.
    apply list_elem_of_fmap in Hin as ([k e] & -> & Hin).
    rewrite Forall_forall in Hall. destruct (Hall _ Hin) as (_ & bytes & Hb & Hid).
    simpl in *. unfold get_sha256_hash. rewrite Hb. simpl. congruence.
  - rewrite well_keyed_ids by exact Hall. exact Hnd.
Qed.

(** C9. A request answered with a 4xx status leaves the store as it was,
    and so does every GET request; the store changes only by one record
    appended by a POST to the collection that is answered 201, or by one
    record removed by a DELETE of a stored value that is answered 204. *)
Theorem store_changes_only_on_success (db : Db) (path : pystr) (request : Request) :
  let answer := (serve db path request).1 in
  let db' := (serve db path request).2 in
  (is_client_error answer = true -> db' = db) /\
  (method request = cps "GET" -> db' = db) /\
  (db' = db \/
   (method request = cps "POST" /\ path = [] /\
    exists entry, answer = Response 201 (EntryBody entry) /\
                  (e_id entry ∉ dict_keys db) /\
                  db' = db ++ [(e_id entry, entry)]) \/
   (method request = cps "DELETE" /\
    exists sha256_hash deleted,
      answer = Response 204 NoContent /\
      dict_get sha256_hash db = Some deleted /\
      db' = dict_del sha256_hash db /\
      length db = S (length db'))).
Proof.
  simpl.
  destruct (serve_cases db path request)
    as [(E & _)|[(Hm & -> & value & h & Hb & Hh & Hc & E)|(Hm & h & e & _ & _ & Hg & E)]].
  - rewrite E. auto.
  - rewrite E. simpl. split; [discriminate|]. split.
    + intros Hg. rewrite Hg in Hm. vm_compute in Hm. discriminate Hm.
    + right. left. split; [exact Hm|]. split; [reflexivity|].
      eexists. split; [reflexivity|]. simpl. split; [|reflexivity].
      apply dict_contains_false. exact Hc.
  - rewrite E. simpl. split; [discriminate|]. split.
    + intros Hg'. rewrite Hg' in Hm. vm_compute in Hm. discriminate Hm.
    + right. right. split; [exact Hm|].
      exists h, e. split; [reflexivity|]. split; [exact Hg|]. split; [reflexivity|].
      symmetry. eapply dict_del_length. exact Hg.
Qed.

End Serving.

(** ** Inserting, deleting, inserting again *)

Section Inserting.
Context `{Unicode}.

Lemma strings_view_post_request (db : Db) (request : Request) :
  method request = cps "POST" -> strings_view db request = strings_view_post db request.
Proof.
  intros Hm. unfold strings_view.
  rewrite (proj2 (request_is_true "POST" request) Hm). reflexivity.
Qed.

Lemma dict_contains_appended {V} (k : pystr) (v : V) (d : dict V) :
  dict_contains k (d ++ [(k, v)]) = true.
Proof.
  apply dict_contains_true. unfold dict_keys. rewrite map_app.
  apply elem_of_app. right. simpl. left.
Qed.

(** C5 (as amended). For a value that has a UTF-8 encoding and whose
    digest is not a key of the store, a first POST of the value is answered
    201 with a record whose id is the digest, and a second one 409 with the
    store left as the first made it.  In a store reached from the empty
    one, when a DELETE of a value is answered 204, a POST of the same value
    is then answered 201 and the new record has the id of the deleted one,
    the digest of the value. *)
Theorem insert_twice_delete_reinsert :
  (forall (db : Db) (first second : Request) (value sha256_hash : pystr),
     asks_to_store first value -> asks_to_store second value ->
     get_sha256_hash value = Some sha256_hash ->
     dict_contains sha256_hash db = false ->
     let entry := entry_of value sha256_hash (now first) in
     let db' := db ++ [(sha256_hash, entry)] in
     strings_view db first = (Response 201 (EntryBody entry), db') /\
     e_id entry = sha256_hash /\
     strings_view db' second =
       (error 409 "String already exists in the system", db')) /\
  (forall (requests : list (pystr * Request)) (delete again : Request)
          (value : pystr) (db' : Db),
     let db := serve_all [] requests in
     method delete = cps "DELETE" -> asks_to_store again value ->
     string_detail_view db delete value = (Response 204 NoContent, db') ->
     exists deleted entry,
       dict_get (e_id deleted) db = Some deleted /\
       db' = dict_del (e_id deleted) db /\
       strings_view db' again =
         (Response 201 (EntryBody entry), db' ++ [(e_id entry, entry)]) /\
       e_value entry = value /\
       e_id entry = e_id deleted /\
       get_sha256_hash value = Some (e_id entry)).
Proof.
  split.
  - intros db first second value h [Hm1 Hb1] [Hm2 Hb2] Hh Hc. simpl.
    rewrite (strings_view_post_request _ _ Hm1), (strings_view_post_request _ _ Hm2).
    rewrite (strings_view_post_value _ _ _ Hb1), (strings_view_post_value _ _ _ Hb2).
    rewrite Hh, Hc, dict_contains_appended, dict_set_new by exact Hc. auto.
  - intros requests delete again value db' db Hm [Hm' Hb] E.
    destruct (well_formed_serve_all requests [] well_formed_empty) as [Hnd Hall].
    fold db in Hnd, Hall.
    unfold string_detail_view in E.
    destruct (get_sha256_hash value) as [h|] eqn:Hh; [|discriminate E].
    destruct (dict_get h db) as [deleted|] eqn:Hg; [|discriminate E].
    assert (Hget : request_is "GET" delete = false).
    { apply request_is_false. rewrite Hm. intros E'. vm_compute in E'. discriminate E'. }
    rewrite Hget, (proj2 (request_is_true "DELETE" delete) Hm) in E.
    injection E as <-.
    assert (Hid : e_id deleted = h).
    { apply dict_get_elem_of in Hg. rewrite Forall_forall in Hall.
      destruct (Hall _ Hg) as [Hid _]. exact Hid. }
    exists deleted, (entry_of value h (now again)). rewrite Hid.
    split; [exact Hg|]. split; [reflexivity|].
    rewrite (strings_view_post_request _ _ Hm'), (strings_view_post_value _ _ _ Hb), Hh.
    rewrite dict_del_absent by exact Hnd.
    rewrite dict_set_new by (apply dict_del_absent; exact Hnd).
    auto.
Qed.

End Inserting.

(** ** The [is_palindrome] parameter and the methods *)

Section Parameters.
Context `{Unicode}.

(** C7 (as amended). When [GET /strings] carries [is_palindrome] and
    answers 200, the filter it echoes is true exactly when the lower-cased
    parameter is ["true"], and false for every other text; for an ASCII
    parameter that is the comparison with ["true"] without regard to
    case. *)
Theorem is_palindrome_parameter (db : Db) (request : Request) (v : pystr)
    (data : list Entry) (count : Z) (filters : Filters) :
  qd_get (cps "is_palindrome") (GET request) = Some v ->
  strings_view_get db request = Response 200 (ListBody data count filters) ->
  (exists b, f_is_palindrome filters = Some b /\
             (b = true <-> str_lower v = cps "true") /\
             forall s, s ∈ data -> p_is_palindrome (e_properties s) = b) /\
  (forallb is_ascii v = true ->
   (str_lower v = cps "true" <-> map ascii_lower v = cps "true")).
Proof.
  intros Hv E. apply strings_view_get_data in E as (Hf & Hdata & _).
  split.
  - exists (str_eqb (str_lower v) (cps "true")). split; [|split].
    + rewrite Hf. unfold read_filters. simpl. rewrite Hv. reflexivity.
    + apply str_eqb_true.
    + intros s Hs. rewrite Hdata in Hs. apply filter_elem_of in Hs as [_ Hs].
      unfold satisfies in Hs.
      rewrite Hf in Hs. unfold read_filters in Hs. simpl in Hs. rewrite Hv in Hs.
      simpl in Hs. rewrite !andb_true_iff in Hs.
      destruct Hs as [[[[Hs _] _] _] _]. apply eqb_prop. exact Hs.
  - intros Ha. unfold str_lower. rewrite Ha. reflexivity.
Qed.

(** C8 (as amended). A method other than POST and GET on the collection,
    and other than GET on the natural-language endpoint, is answered 405
    whatever else the request holds.  On [/strings/{value}] a method other
    than GET and DELETE is answered 405 when the value is stored and 404
    when it is not: the view looks the value up before it looks at the
    method. *)
Theorem other_methods (db : Db) (path : pystr) (request : Request) :
  (resolve path = Some StringsView ->
   method request <> cps "POST" -> method request <> cps "GET" ->
   serve db path request = (error 405 "Method not allowed", db)) /\
  (resolve path = Some FilterView ->
   method request <> cps "GET" ->
   serve db path request = (error 405 "Method not allowed", db)) /\
  (forall string_value sha256_hash,
   resolve path = Some (DetailView string_value) ->
   method request <> cps "GET" -> method request <> cps "DELETE" ->
   get_sha256_hash string_value = Some sha256_hash ->
   serve db path request =
     if dict_contains sha256_hash db
     then (error 405 "Method not allowed", db)
     else (error 404 "String does not exist in the system", db)).
Proof.
  unfold serve. split; [|split].
  - intros -> Hp Hg. unfold strings_view.
    apply request_is_false in Hp, Hg. rewrite Hp, Hg. reflexivity.
  - intros -> Hg. unfold filter_by_natural_language.
    apply request_is_false in Hg. rewrite Hg. reflexivity.
  - intros v h -> Hg Hd Hh. unfold string_detail_view, dict_contains.
    apply request_is_false in Hg, Hd. rewrite Hh, Hg, Hd.
    destruct (dict_get h db); reflexivity.
Qed.

End Parameters.

(** ** Every filter set is asked for by some request *)

Lemma query_string_get (p mn mx wc ch : option pystr) :
  qd_get (cps "is_palindrome") (query_string p mn mx wc ch) = p /\
  qd_get (cps "min_length") (query_string p mn mx wc ch) = mn /\
  qd_get (cps "max_length") (query_string p mn mx wc ch) = mx /\
  qd_get (cps "word_count") (query_string p mn mx wc ch) = wc /\
  qd_get (cps "contains_character") (query_string p mn mx wc ch) = ch.
Proof. destruct p, mn, mx, wc, ch; vm_compute; repeat split. Qed.

Section Rendering.
Context `{Unicode}.

Abbreviation add_digit :=
  (fun (acc : Z) (c : N) => (10 * acc + Z.of_N (default 0%N (digit_value c)))%Z).

Lemma ascii_digit (d : N) :
  d < 10 -> is_digit (48 + d) = true /\ digit_value (48 + d) = Some d.
Proof.
  intros Hd. unfold is_digit, digit_value, is_ascii.
  destruct (N.ltb_spec (48 + d) 128); [|lia].
  destruct (N.leb_spec 48 (48 + d)); [|lia].
  destruct (N.leb_spec (48 + d) 57); [|lia].
  simpl. replace (48 + d - 48) with d by lia. auto.
Qed.

Lemma decimal_digits_eq (fuel : nat) (n : N) (acc : pystr) :
  decimal_digits (S fuel) n acc =
  if n <? 10 then (48 + n mod 10) :: acc
  else decimal_digits fuel (n / 10) ((48 + n mod 10) :: acc).
Proof. reflexivity. Qed.

(** The digits written are decimal digits, at least one, and denote [n]. *)
Lemma decimal_digits_spec (fuel : nat) :
  forall (n : N) (acc : pystr),
  n < 2 ^ N.of_nat (S fuel) ->
  exists ds, decimal_digits (S fuel) n acc = ds ++ acc /\ ds <> [] /\
             Forall (fun c => is_digit c = true) ds /\
             forall a, fold_left add_digit ds a =
                       (a * 10 ^ Z.of_nat (length ds) + Z.of_N n)%Z.
Proof.
  induction fuel as [|fuel IH]; intros n acc Hn;
    rewrite decimal_digits_eq;
    (assert (Hmod : n mod 10 < 10) by (apply N.mod_lt; lia));
    destruct (ascii_digit _ Hmod) as [Hd Hv];
    destruct (N.ltb_spec n 10) as [Hlt|Hge].
  1,3: exists [48 + n mod 10]; split; [reflexivity|]; split; [discriminate|];
       split; [repeat constructor; exact Hd|];
       intros a; simpl; rewrite Hv; simpl; rewrite N.mod_small by exact Hlt; lia.
  - change (2 ^ N.of_nat 1) with 2 in Hn. lia.
  - assert (Hdiv : n / 10 < 2 ^ N.of_nat (S fuel)).
    { rewrite (Nat2N.inj_succ (S fuel)), N.pow_succ_r' in Hn.
      apply N.Div0.div_lt_upper_bound. lia. }
    destruct (IH (n / 10) ((48 + n mod 10) :: acc) Hdiv) as (ds & E & Hne & Hds & Hval).
    exists (ds ++ [48 + n mod 10]). rewrite E, <- app_assoc.
    split; [reflexivity|]. split; [destruct ds; discriminate|].
    split; [apply Forall_app; split; [exact Hds|repeat constructor; exact Hd]|].
    intros a. rewrite fold_left_app, Hval, length_app. simpl. rewrite Hv. simpl.
    rewrite Nat2Z.inj_add, Z.pow_add_r by lia.
    change (10 ^ Z.of_nat 1)%Z with 10%Z.
    assert (Hn' : Z.of_N n = (10 * Z.of_N (n / 10) + Z.of_N (n mod 10))%Z).
    { rewrite (N.div_mod n 10) at 1 by lia. lia. }
    rewrite Hn'. ring.
Qed.

Lemma decimal_digits_text (n : N) :
  exists ds, decimal_digits (S (N.to_nat (N.log2 n))) n [] = ds /\ ds <> [] /\
             Forall (fun c => is_digit c = true) ds /\
             decimal_value ds = Z.of_N n.
Proof.
  destruct (decimal_digits_spec (N.to_nat (N.log2 n)) n []) as (ds & E & Hne & Hds & Hval).
  - rewrite Nat2N.inj_succ, N2Nat.id.
    destruct (N.eq_dec n 0) as [->|Hn]; [reflexivity|].
    apply N.log2_spec. lia.
  - exists ds. rewrite E, app_nil_r. split; [reflexivity|]. split; [exact Hne|].
    split; [exact Hds|]. unfold decimal_value. rewrite Hval. lia.
Qed.

(** [int] reads the decimal text of an integer back. *)
Lemma py_int_decimal_text (z : Z) : py_int (decimal_text z) = Some z.
Proof.
  unfold decimal_text.
  destruct (decimal_digits_text (Z.to_N (Z.abs z))) as (ds & -> & Hne & Hds & Hval).
  destruct (Z.ltb_spec z 0) as [Hneg|Hpos].
  - unfold py_int. cbn [app].
    change (map int_token_of (45 :: ds)) with (TSign true :: map int_token_of ds).
    cbn [drop_spaces rev].
    assert (Hrev : exists d ts', rev (map int_token_of ds) = TDigit d :: ts').
    { rewrite <- map_rev.
      assert (Hds' : Forall (fun c => is_digit c = true) (rev ds))
        by (apply Forall_rev; exact Hds).
      destruct (rev ds) as [|c l] eqn:E.
      - exfalso. apply Hne. apply (f_equal (@rev N)) in E.
        rewrite rev_involutive in E. exact E.
      - apply Forall_inv in Hds'.
        destruct (digit_token c Hds') as (d & _ & Ht & _). simpl. rewrite Ht. eauto. }
    destruct Hrev as (d & ts' & E). rewrite E. cbn [app drop_spaces].
    rewrite app_comm_cons, <- E, rev_app_distr, rev_involutive. cbn [rev app].
    rewrite (int_digits_digits ds 0 Hne Hds). fold (decimal_value ds).
    cbn. f_equal. lia.
  - cbn [app]. rewrite (py_int_digits ds Hne Hds). f_equal. lia.
Qed.

(** The view's answer to the request that asks for a filter set. *)
Lemma strings_view_get_query_of (db : Db) (request : Request) (f : Filters) :
  GET request = query_of f -> one_character f ->
  strings_view_get db request =
  Response 200
    (ListBody (List.filter (satisfies f) (dict_values db))
              (Z.of_nat (length (List.filter (satisfies f) (dict_values db)))) f).
Proof.
  intros Eq Hchar.
  rewrite <- (keep_all_satisfies f (dict_values db) Hchar).
  unfold strings_view_get, get_is_palindrome, get_min_length, get_max_length,
    get_word_count, get_contains_character, int_param.
  rewrite Eq. unfold query_of.
  destruct (query_string_get
              ((fun b : bool => if b then cps "true" else cps "false")
                 <$> f_is_palindrome f)
              (decimal_text <$> f_min_length f) (decimal_text <$> f_max_length f)
              (decimal_text <$> f_word_count f) (f_contains_character f))
    as (-> & -> & -> & -> & ->).
  destruct f as [[b|] [mn|] [mx|] [wc|] [char|]]; cbn -[decimal_text cps];
    rewrite ?py_int_decimal_text; cbn -[decimal_text cps];
    try (specialize (Hchar char eq_refl); rewrite Hchar; cbn -[decimal_text cps]);
    try destruct b; reflexivity.
Qed.


End Rendering.

(** ** Running the engine on a text that is known in part *)



Section Forward.
Context `{Unicode}.















End Forward.

(** ** The query [longer than N words] *)

Section LongerThanWords.
Context `{Unicode}.






Variable ds : pystr.
Hypothesis ds_not_empty : ds <> [].
Hypothesis ds_digits : Forall (fun x => is_digit x = true) ds.










Lemma digits_isdigit : str_isdigit ds = true.
Proof.
  unfold str_isdigit. destruct ds as [|d ds'] eqn:Eds; [done|]. rewrite <- Eds.
  apply (proj2 (forallb_forall _ _)). intros x Hx%list_elem_of_In.
  rewrite Forall_forall in ds_digits. rewrite Eds in Hx. specialize (ds_digits x Hx).
  destruct (is_ascii x) eqn:Ha; [exact ds_digits|].
  unfold is_digit, digit_value in ds_digits. rewrite Ha in ds_digits.
  destruct (uc_decimal x) as [v|] eqn:Ed; [|discriminate].
  exact (uc_decimal_isdigit x v Ed).
Qed.


End LongerThanWords.

Section CountAndLength.
Context `{Unicode}.


End CountAndLength.

(** * Further properties of the views *)

(** ** More on the dictionary *)

Section DictMore.
Context {V : Type}.
Implicit Types (d : dict V) (k : pystr) (v : V).

Lemma dict_get_app_l k v d d' :
  dict_get k d = Some v -> dict_get k (d ++ d') = Some v.
Proof.
  induction d as [|[k' v'] d IH]; simpl; [discriminate|].
  case_bool_decide; [trivial|exact IH].
Qed.

Lemma dict_get_app_r k d d' :
  dict_get k d = None -> dict_get k (d ++ d') = dict_get k d'.
Proof.
  induction d as [|[k' v'] d IH]; simpl; [reflexivity|].
  case_bool_decide; [discriminate|exact IH].
Qed.

Lemma dict_get_del_ne k k' d :
  k <> k' -> dict_get k (dict_del k' d) = dict_get k d.
Proof.
  intros Hne. induction d as [|[k'' v''] d IH]; simpl; [reflexivity|].
  destruct (decide (k' = k'')) as [->|Hk'].
  - rewrite bool_decide_eq_true_2 by reflexivity.
    rewrite bool_decide_eq_false_2 by exact Hne. reflexivity.
  - rewrite (bool_decide_eq_false_2 (k' = k'')) by exact Hk'. simpl.
    rewrite IH. reflexivity.
Qed.

Lemma dict_get_del_eq k d :
  NoDup (dict_keys d) -> dict_get k (dict_del k d) = None.
Proof.
  intros Hnd. pose proof (dict_del_absent k d Hnd) as E.
  unfold dict_contains in E. destruct (dict_get k (dict_del k d)); [discriminate|reflexivity].
Qed.

(** Deleting a key keeps every other item, in order. *)
Lemma dict_del_filter k d :
  NoDup (dict_keys d) ->
  dict_del k d = List.filter (fun item => negb (bool_decide (k = item.1))) d.
Proof.
  unfold dict_keys. induction d as [|[k' v'] d IH]; simpl; [reflexivity|].
  intros Hnd. apply NoDup_cons in Hnd as [Hk' Hnd].
  case_bool_decide as Hk; simpl.
  - subst k'. clear IH. induction d as [|[k'' v''] d IH]; simpl; [reflexivity|].
    simpl in Hk'. apply not_elem_of_cons in Hk' as [Hne Hk'].
    apply NoDup_cons in Hnd as [_ Hnd].
    rewrite bool_decide_eq_false_2 by exact Hne. simpl. f_equal. apply IH; assumption.
  - f_equal. apply IH. exact Hnd.
Qed.

End DictMore.

(** ** The life of a record *)

Section Lifecycle.
Context `{Unicode}.

Lemma serve_collection (db : Db) (request : Request) :
  serve db [] request = strings_view db request.
Proof. reflexivity. Qed.

(** X3. A POST answered 201 can be read back: a GET of the same value,
    when the value is a path the third pattern of [urls.py] takes, is
    answered 200 with the very record the POST returned, and that record
    is the last of the store. *)
Theorem post_then_get (db db' : Db) (post get : Request) (value : pystr)
    (entry : Entry) :
  asks_to_store post value ->
  serve db [] post = (Response 201 (EntryBody entry), db') ->
  resolve value = Some (DetailView value) ->
  method get = cps "GET" ->
  serve db' value get = (Response 200 (EntryBody entry), db') /\
  e_value entry = value /\
  get_sha256_hash value = Some (e_id entry) /\
  db' = db ++ [(e_id entry, entry)].
Proof.
  intros [Hm Hb] E Hr Hg.
  rewrite serve_collection, (strings_view_post_request _ _ Hm),
    (strings_view_post_value _ _ _ Hb) in E.
  destruct (get_sha256_hash value) as [h|] eqn:Hh; [|discriminate E].
  destruct (dict_contains h db) eqn:Hc; [discriminate E|].
  injection E as <- <-. simpl.
  rewrite dict_set_new by exact Hc.
  split; [|auto].
  unfold serve. rewrite Hr. unfold string_detail_view. rewrite Hh.
  assert (Hget : dict_get h db = None).
  { unfold dict_contains in Hc. destruct (dict_get h db); [discriminate|reflexivity]. }
  rewrite (dict_get_app_r _ _ _ Hget). simpl.
  rewrite bool_decide_eq_true_2 by reflexivity.
  rewrite (proj2 (request_is_true "GET" get) Hg). reflexivity.
Qed.

Lemma values_without_key (db : Db) (h : pystr) :
  Forall well_keyed db ->
  map snd (List.filter (fun item => negb (bool_decide (h = item.1))) db) =
  List.filter (fun entry => negb (bool_decide (Some h = Some (e_id entry)))) (map snd db).
Proof.
  induction 1 as [|[k entry] l [Hk _] _ IH]; simpl; [reflexivity|].
  simpl in Hk. rewrite Hk.
  destruct (decide (h = k)) as [->|Hne].
  - rewrite !bool_decide_eq_true_2 by reflexivity. simpl. exact IH.
  - rewrite (bool_decide_eq_false_2 (h = k)) by exact Hne.
    rewrite (bool_decide_eq_false_2 (Some h = Some k)) by congruence.
    simpl. f_equal. exact IH.
Qed.

(** X4. In a store reached from the empty one, once a DELETE of a value
    is answered 204 every later request for that value is answered 404
    whatever its method, every record under another key is still there,
    and the listing is the old one without the deleted record, in the old
    order. *)
Theorem delete_then_gone (requests : list (pystr * Request)) (delete : Request)
    (value : pystr) (db' : Db) :
  serve (serve_all [] requests) value delete = (Response 204 NoContent, db') ->
  (forall request,
     serve db' value request = (error 404 "String does not exist in the system", db')) /\
  (forall k, get_sha256_hash value <> Some k ->
     dict_get k db' = dict_get k (serve_all [] requests)) /\
  dict_values db' =
    List.filter (fun entry => negb (bool_decide (get_sha256_hash value = Some (e_id entry))))
                (dict_values (serve_all [] requests)).
Proof.
  intros E.
  destruct (well_formed_serve_all requests [] well_formed_empty) as [Hnd Hall].
  set (db := serve_all [] requests) in *.
  destruct (serve_cases db value delete)
    as [(_ & _ & E204)|[(_ & _ & v & h & _ & _ & _ & E')|(_ & h & deleted & Hr & Hh & Hg & E')]].
  - rewrite E in E204. simpl in E204. congruence.
  - rewrite E in E'. discriminate E'.
  - rewrite E in E'. injection E' as ->. split; [|split].
    + intros request. unfold serve. rewrite Hr. unfold string_detail_view.
      rewrite Hh, dict_get_del_eq by exact Hnd. reflexivity.
    + intros k Hk. apply dict_get_del_ne. congruence.
    + rewrite dict_del_filter by exact Hnd. rewrite Hh.
      apply values_without_key. exact Hall.
Qed.

(** X5. A stored record is never changed: after any request the record
    under a key is the same record, unless the request is a DELETE,
    answered 204, of a value with that digest. *)
Theorem stored_record_never_changes (db : Db) (path : pystr) (request : Request)
    (k : pystr) (entry : Entry) :
  dict_get k db = Some entry ->
  dict_get k (serve db path request).2 = Some entry \/
  (method request = cps "DELETE" /\ get_sha256_hash path = Some k /\
   (serve db path request).1 = Response 204 NoContent).
Proof.
  intros Hk.
  destruct (serve_cases db path request)
    as [(-> & _)|[(_ & _ & v & h & _ & _ & _ & ->)|(Hm & h & deleted & _ & Hh & _ & ->)]].
  - left. exact Hk.
  - left. simpl. apply dict_get_app_l. exact Hk.
  - simpl. destruct (decide (k = h)) as [->|Hne].
    + right. auto.
    + left. rewrite dict_get_del_ne by exact Hne. exact Hk.
Qed.

End Lifecycle.

(** ** Values no path reaches *)

Section Routes.
Context `{Unicode}.

Lemma resolve_slash (path : pystr) : 47 ∈ path -> resolve path = None.
Proof.
  intros Hin. unfold resolve.
  destruct (str_eqb path []) eqn:E0.
  { apply str_eqb_true in E0. subst. inversion Hin. }
  destruct (str_eqb path (cps "filter-by-natural-language")) eqn:E1.
  { apply str_eqb_true in E1. subst. exfalso.
    apply list_elem_of_In in Hin. vm_compute in Hin.
    repeat (destruct Hin as [Hin|Hin]; [discriminate Hin|]). exact Hin. }
  destruct (forallb (fun c => negb (c =? 47)) path) eqn:E2; [|reflexivity].
  apply list_elem_of_In in Hin.
  apply (proj1 (forallb_forall _ _) E2) in Hin. discriminate Hin.
Qed.

Ltac split_view :=
  repeat match goal with
  | |- context [match ?x with _ => _ end] => destruct x; simpl; try discriminate
  end.

Lemma strings_view_no_record (db : Db) (request : Request) (entry : Entry) :
  (strings_view db request).1 <> Response 200 (EntryBody entry) /\
  (strings_view db request).1 <> Response 204 NoContent.
Proof.
  unfold strings_view.
  destruct (request_is "POST" request).
  - unfold strings_view_post. split; split_view.
  - destruct (request_is "GET" request); [|split; discriminate]. simpl.
    unfold strings_view_get, get_is_palindrome, get_min_length, get_max_length,
      get_word_count, get_contains_character, int_param.
    split; split_view.
Qed.

Lemma filter_view_no_record (db : Db) (request : Request) (entry : Entry) :
  filter_by_natural_language db request <> Response 200 (EntryBody entry) /\
  filter_by_natural_language db request <> Response 204 NoContent.
Proof.
  unfold filter_by_natural_language.
  destruct (negb (request_is "GET" request)); [split; discriminate|].
  destruct (qd_get (cps "query") (GET request)) as [[|c query]|];
    try (split; discriminate).
  rewrite parse_natural_language_query_total.
  destruct (filters_empty _); [split; discriminate|]. cbv zeta.
  destruct (conflicting _) as [[mn mx]|]; split; discriminate.
Qed.

(** X6. The third pattern of [urls.py] takes no empty text, no text with a
    slash and not the text [filter-by-natural-language], which the second
    pattern takes first.  A value of one of these kinds can be stored by a
    POST, but no request on the path of the value is answered with its
    record or with 204, and none removes or changes a stored record. *)
Theorem unreachable_values (db : Db) (value : pystr) (request : Request) :
  value = [] \/ value = cps "filter-by-natural-language" \/ 47 ∈ value ->
  (forall entry, (serve db value request).1 <> Response 200 (EntryBody entry)) /\
  (serve db value request).1 <> Response 204 NoContent /\
  (forall k entry, dict_get k db = Some entry ->
                   dict_get k (serve db value request).2 = Some entry).
Proof.
  intros Hv.
  assert (Hno : (forall entry, (serve db value request).1 <> Response 200 (EntryBody entry)) /\
                (serve db value request).1 <> Response 204 NoContent).
  { destruct Hv as [->|[->|Hslash]].
    - split; [intros entry|]; apply (strings_view_no_record db request (entry_of [] [] [])) ||
        apply (strings_view_no_record db request entry).
    - split; [intros entry|]; simpl;
        apply (filter_view_no_record db request (entry_of [] [] [])) ||
        apply (filter_view_no_record db request entry).
    - unfold serve. rewrite (resolve_slash _ Hslash). split; [intros entry|]; discriminate. }
  destruct Hno as [Hrec H204]. split; [exact Hrec|]. split; [exact H204|].
  intros k entry Hk.
  destruct (serve_cases db value request)
    as [(-> & _)|[(_ & _ & v & h & _ & _ & _ & ->)|(_ & h & deleted & _ & _ & _ & E)]].
  - exact Hk.
  - simpl. apply dict_get_app_l. exact Hk.
  - rewrite E in H204. simpl in H204. congruence.
Qed.

End Routes.

(** ** What POST and the listing answer *)

(** The bodies that make the POST raise: one [json.loads] fails on for
    another reason than its syntax, a JSON document that is no container,
    a list with the item ["value"], a text that holds [value], and an
    object whose value is a text without a UTF-8 encoding. *)
Definition post_raises (b : loads_result) : Prop :=
  match b with
  | LoadsFailure => True
  | JSONDecodeError => False
  | Loaded (JNull | JBool _ | JInt _ | JFloat _) => True
  | Loaded (JStr s) => str_contains (cps "value") s = true
  | Loaded (JList items) => exists item, item ∈ items /\ item = JStr (cps "value")
  | Loaded (JDict items) =>
      exists value, dict_get (cps "value") items = Some (JStr value) /\
                    encode_utf8 value = None
  end.


Section Answers.
Context `{Unicode}.

Lemma existsb_value (items : list json) :
  existsb (fun x => match x with JStr s => str_eqb s (cps "value") | _ => false end) items
    = true <->
  exists item, item ∈ items /\ item = JStr (cps "value").
Proof.
  rewrite existsb_exists. split.
  - intros (x & Hin & Hx). exists x. split; [apply list_elem_of_In; exact Hin|].
    destruct x; try discriminate. apply str_eqb_true in Hx. congruence.
  - intros (x & Hin & ->). exists (JStr (cps "value")).
    split; [apply list_elem_of_In; exact Hin|]. apply str_eqb_true. reflexivity.
Qed.

(** X7. A POST lets an exception escape, and stores nothing, exactly for
    the bodies of [post_raises]; for every other body it answers with one
    of the statuses 400, 404, 422, 409 and 201. *)
Theorem post_raises_exactly (db : Db) (request : Request) :
  let answer := (strings_view_post db request).1 in
  ((exists e, answer = Raised e) <-> post_raises (body request)) /\
  ((exists e, answer = Raised e) -> (strings_view_post db request).2 = db) /\
  (status_of answer = None \/ status_of answer = Some 400%Z \/
   status_of answer = Some 404%Z \/ status_of answer = Some 422%Z \/
   status_of answer = Some 409%Z \/ status_of answer = Some 201%Z).
Proof.
  unfold strings_view_post, post_raises.
  destruct (body request) as [data| |]; simpl.
  2:{ split; [split; [intros (e & [=])|tauto]|]. split; [intros (e & [=])|auto]. }
  2:{ split; [split; [tauto|eauto]|]. auto. }
  destruct data as [|b|n|repr|s|items|items]; simpl;
    try (split; [split; [tauto|eauto]|]; auto).
  - destruct (str_contains (cps "value") s); simpl.
    + split; [split; [tauto|eauto]|]. auto.
    + split; [split; [intros (e & [=])|discriminate]|].
      split; [intros (e & [=])|auto 7].
  - pose proof (existsb_value items) as Hex.
    destruct (existsb _ items); simpl.
    + split; [split; [intros _; apply Hex; reflexivity|eauto]|]. auto.
    + split; [split; [intros (e & [=])|intros Hx; apply Hex in Hx; discriminate Hx]|].
      split; [intros (e & [=])|auto 7].
  - unfold dict_contains.
    destruct (dict_get (cps "value") items) as [j|] eqn:Ej; simpl.
    2:{ split; [split; [intros (e & [=])|intros (v & [=] & _)]|].
        split; [intros (e & [=])|auto 7]. }
    destruct j as [| | | |value| |]; simpl;
      try (split; [split; [intros (e & [=])|intros (v & [=] & _)]|];
           split; [intros (e & [=])|auto 7]).
    unfold get_sha256_hash. destruct (encode_utf8 value) as [bytes|] eqn:Eb; simpl.
    + destruct (dict_get (SHA256.hexdigest bytes) db) as [stored|]; simpl;
        (split; [split; [intros (e & [=])|intros (v & [= <-] & Hv); congruence]|]);
        (split; [intros (e & [=])|auto 8]).
    + split; [split; [eauto|eauto]|]. auto.
Qed.


(** X9. The listing has no check of crossed bounds: with [min_length]
    above [max_length] it still answers 200, and the list is empty. *)
Theorem crossed_bounds_list_nothing (db : Db) (request : Request)
    (data : list Entry) (count : Z) (filters : Filters) (a b : Z) :
  strings_view_get db request = Response 200 (ListBody data count filters) ->
  f_min_length filters = Some a -> f_max_length filters = Some b -> (a > b)%Z ->
  data = [] /\ count = 0%Z.
Proof.
  intros E Ha Hb Hab. apply strings_view_get_data in E as (_ & Hdata & Hcount).
  assert (Hno : forall s, satisfies filters s = false).
  { intros s. unfold satisfies. rewrite Ha, Hb.
    destruct (Z.leb_spec a (p_length (e_properties s)));
      destruct (Z.leb_spec (p_length (e_properties s)) b); try lia;
      rewrite ?andb_false_r; reflexivity. }
  assert (Hnone : data = []).
  { rewrite Hdata. clear Hdata Hcount.
    induction (dict_values db) as [|s l IH]; simpl; [reflexivity|].
    rewrite Hno. exact IH. }
  split; [exact Hnone|]. rewrite Hcount, Hnone. reflexivity.
Qed.

End Answers.

(** ** What the fields say of each other *)

Section Consistency.
Context `{Unicode}.

Definition sum_values (m : gmap N Z) : Z := map_fold (fun _ n sum => (n + sum)%Z) 0%Z m.

Lemma sum_values_insert (m : gmap N Z) (c : N) (n : Z) :
  sum_values (<[c := n]> m) = (sum_values m - default 0 (m !! c) + n)%Z.
Proof.
  unfold sum_values. destruct (m !! c) as [old|] eqn:E; simpl.
  - rewrite <- insert_delete_eq.
    rewrite (map_fold_delete_L _ _ c old m) by (intros; lia || exact E).
    rewrite map_fold_insert_L; [lia|intros; lia|apply lookup_delete_eq].
  - rewrite map_fold_insert_L; [lia|intros; lia|exact E].
Qed.

Lemma sum_values_count (s : pystr) (m : gmap N Z) :
  sum_values (fold_left count_char s m) = (sum_values m + Z.of_nat (length s))%Z.
Proof.
  revert m. induction s as [|c s IH]; intros m; simpl fold_left.
  - simpl. lia.
  - rewrite IH. unfold count_char. rewrite sum_values_insert. simpl length. lia.
Qed.

Lemma remove_dups_length (s : pystr) : (length (remove_dups s) <= length s)%nat.
Proof.
  induction s as [|c s IH]; simpl; [lia|].
  destruct (decide_rel elem_of c s); simpl; lia.
Qed.

Lemma word_starts_bound (s : pystr) :
  (2 * word_starts true s <= length s + 1 /\ 2 * word_starts false s <= length s)%nat.
Proof.
  induction s as [|c s [IHt IHf]]; simpl; [lia|].
  destruct (is_space c); simpl; lia.
Qed.

Lemma word_starts_none (s : pystr) :
  word_starts true s = 0%nat <-> Forall (fun c => is_space c = true) s.
Proof.
  induction s as [|c s IH]; simpl.
  - split; [constructor|reflexivity].
  - destruct (is_space c) eqn:Ec; simpl.
    + rewrite IH. split; [intros Hs; constructor; assumption|].
      intros Hs. apply Forall_inv_tail in Hs. exact Hs.
    + split; [discriminate|]. intros Hs. apply Forall_inv in Hs. congruence.
Qed.

(** X10. The fields [compute_string_properties] returns fit together: the
    frequency map has [unique_characters] keys, its counts are at least 1
    and add up to [length]; there are at most [length] distinct code
    points; the words and the white space between them fill the string, so
    twice [word_count] is at most [length + 1]; and [word_count] is 0
    exactly for a string of white space only. *)
Theorem properties_consistent (value : pystr) :
  let p := compute_string_properties value in
  p_unique_characters p = Z.of_nat (size (p_character_frequency_map p)) /\
  sum_values (p_character_frequency_map p) = p_length p /\
  (forall c n, p_character_frequency_map p !! c = Some n -> (1 <= n <= p_length p)%Z) /\
  (0 <= p_unique_characters p <= p_length p)%Z /\
  (2 * p_word_count p <= p_length p + 1)%Z /\
  (p_word_count p = 0%Z <-> Forall (fun c => is_space c = true) value).
Proof.
  simpl.
  assert (Hdom : dom (char_frequencies value) = (list_to_set value : gset N)).
  { apply set_eq. intros c. rewrite elem_of_dom, elem_of_list_to_set.
    rewrite char_frequencies_lookup. case_bool_decide; split; intros Hc.
    - assumption.
    - eauto.
    - destruct Hc as [? [=]].
    - contradiction. }
  split; [rewrite <- Hdom, size_dom; reflexivity|].
  split; [unfold char_frequencies; rewrite sum_values_count; reflexivity|].
  split.
  { intros c n. rewrite char_frequencies_lookup.
    case_bool_decide as Hin; [|discriminate]. intros [= <-].
    pose proof (count_occ_bound N.eq_dec c value).
    apply list_elem_of_In, (count_occ_In N.eq_dec) in Hin.
    unfold occurrences. lia. }
  split.
  { rewrite distinct_size. split; [lia|]. apply inj_le.
    apply remove_dups_length. }
  split.
  { rewrite str_split_length. unfold whitespace_delimited_words.
    pose proof (word_starts_bound value). lia. }
  rewrite str_split_length. unfold whitespace_delimited_words.
  rewrite <- word_starts_none. lia.
Qed.

End Consistency.

(** ** A string read backwards *)

Section Backwards.
Context `{Unicode}.

Lemma word_starts_snoc (b : bool) (s : pystr) (c : N) :
  word_starts b (s ++ [c]) =
  (word_starts b s +
   (if match last s with Some x => is_space x | None => b end && negb (is_space c)
    then 1 else 0))%nat.
Proof.
  revert b. induction s as [|x s IH]; intros b; simpl.
  - lia.
  - rewrite IH. destruct s as [|y s]; [simpl; lia|].
    change (last (x :: y :: s)) with (last (y :: s)).
    destruct (last (y :: s)) as [z|] eqn:El; [lia|].
    apply last_None in El. discriminate El.
Qed.

Lemma word_starts_after (s : pystr) :
  (word_starts true s =
   word_starts false s +
   (if match s with x :: _ => negb (is_space x) | [] => false end then 1 else 0))%nat.
Proof. destruct s as [|x s]; simpl; [reflexivity|]. destruct (is_space x); simpl; lia. Qed.

Lemma last_rev (s : pystr) : last (rev s) = head s.
Proof.
  destruct s as [|x s]; simpl; [reflexivity|].
  rewrite last_app. reflexivity.
Qed.

Lemma word_starts_rev (s : pystr) : word_starts true (rev s) = word_starts true s.
Proof.
  induction s as [|c s IH]; simpl; [reflexivity|].
  rewrite word_starts_snoc, last_rev, IH.
  destruct (is_space c); simpl; [destruct (head s) as [x|]; [destruct (is_space x)|]; simpl; lia|].
  rewrite (word_starts_after s).
  destruct s as [|x s]; simpl; [reflexivity|]. destruct (is_space x); simpl; lia.
Qed.

(** X11. Read backwards, a string has the same length, the same distinct
    code points, the same number of words and the same frequency map; for
    a string of ASCII only, where [lower] works code point by code point,
    the palindrome flag is the same as well. *)
Theorem backwards_same_properties (value : pystr) :
  let p := compute_string_properties value in
  let p' := compute_string_properties (rev value) in
  p_length p' = p_length p /\
  p_unique_characters p' = p_unique_characters p /\
  p_word_count p' = p_word_count p /\
  p_character_frequency_map p' = p_character_frequency_map p /\
  (forallb is_ascii value = true -> p_is_palindrome p' = p_is_palindrome p).
Proof.
  simpl. split; [rewrite length_rev; reflexivity|].
  assert (Hin : forall c, c ∈ rev value <-> c ∈ value).
  { intros c. rewrite !list_elem_of_In. symmetry. apply in_rev. }
  split.
  { do 2 f_equal. apply set_eq. intros c. rewrite !elem_of_list_to_set. apply Hin. }
  split.
  { rewrite !str_split_length. unfold whitespace_delimited_words.
    rewrite word_starts_rev. reflexivity. }
  split.
  { apply map_eq. intros c. rewrite !char_frequencies_lookup.
    unfold occurrences. rewrite count_occ_rev.
    rewrite (bool_decide_ext _ _ (Hin c)). reflexivity. }
  intros Ha.
  assert (Ha' : forallb is_ascii (rev value) = true).
  { apply forallb_forall. intros c Hc. apply in_rev in Hc.
    exact (proj1 (forallb_forall _ _) Ha c Hc). }
  unfold str_lower. rewrite Ha, Ha', map_rev, rev_involutive.
  unfold str_eqb. apply bool_decide_ext. split; congruence.
Qed.

End Backwards.

(** ** The digest *)

(** A hexadecimal digit in lower case. *)
Definition is_hex (c : N) : Prop := 48 <= c <= 57 \/ 97 <= c <= 102.

(** A code point UTF-8 has an encoding for: a Unicode scalar value. *)
Definition is_scalar (c : N) : Prop := (c < 0xD800 \/ 0xDFFF < c) /\ c < 0x110000.

Section Digest.

Lemma round_length (st : list N) (kw : N * N) :
  length (SHA256.round st kw) = length st.
Proof.
  unfold SHA256.round.
  destruct st as [|a [|b [|c [|d [|e [|f [|g [|h [|i st]]]]]]]]]; reflexivity.
Qed.

Lemma rounds_length (kws : list (N * N)) (st : list N) :
  length (fold_left SHA256.round kws st) = length st.
Proof.
  revert st. induction kws as [|kw kws IH]; intros st; simpl; [reflexivity|].
  rewrite IH. apply round_length.
Qed.

Lemma compress_length (h block : list N) :
  length (SHA256.compress h block) = length h.
Proof.
  unfold SHA256.compress. rewrite length_zip_with, rounds_length. lia.
Qed.

Lemma digest_words_length (msg : list N) : length (SHA256.digest_words msg) = 8%nat.
Proof.
  unfold SHA256.digest_words. cbv zeta.
  generalize (SHA256.blocks (length (SHA256.words_of (SHA256.pad msg)))
                (SHA256.words_of (SHA256.pad msg))).
  intros bs.
  assert (Hh : length SHA256.H0 = 8%nat) by (vm_compute; reflexivity).
  revert Hh. generalize SHA256.H0. induction bs as [|b bs IH]; intros h Hh; simpl.
  - exact Hh.
  - apply IH. rewrite compress_length. exact Hh.
Qed.

Lemma hex_digit_hex (d : N) : d < 16 -> is_hex (SHA256.hex_digit d).
Proof.
  intros Hd. unfold SHA256.hex_digit, is_hex.
  destruct (N.ltb_spec d 10); lia.
Qed.

Lemma hex_word_hex (w : N) :
  length (SHA256.hex_word w) = 8%nat /\ Forall is_hex (SHA256.hex_word w).
Proof.
  unfold SHA256.hex_word. split; [reflexivity|].
  apply Forall_map, Forall_forall. intros i _. apply hex_digit_hex.
  change 0xF with (N.ones 4). rewrite N.land_ones.
  apply N.mod_lt. discriminate.
Qed.

Lemma hexdigest_shape (msg : list N) :
  length (SHA256.hexdigest msg) = 64%nat /\ Forall is_hex (SHA256.hexdigest msg).
Proof.
  unfold SHA256.hexdigest. pose proof (digest_words_length msg) as Hl.
  revert Hl. generalize (SHA256.digest_words msg). intros ws Hl.
  assert (Hlen : forall l : list N,
             length (concat (map SHA256.hex_word l)) = (8 * length l)%nat).
  { induction l as [|w l IH]; [reflexivity|].
    cbn [map concat]. rewrite length_app, IH.
    rewrite (proj1 (hex_word_hex w)). simpl length. lia. }
  split; [rewrite Hlen, Hl; reflexivity|].
  clear. induction ws as [|w ws IH]; [constructor|].
  cbn [map concat]. apply Forall_app. split; [apply hex_word_hex|exact IH].
Qed.

Lemma utf8_char_scalar (c : N) : is_Some (utf8_char c) <-> is_scalar c.
Proof.
  unfold utf8_char, is_scalar.
  destruct (N.ltb_spec c 0x80); [split; [lia|eauto]|].
  destruct (N.ltb_spec c 0x800); [split; [lia|eauto]|].
  destruct (N.ltb_spec c 0x10000).
  - destruct (N.leb_spec 0xD800 c); destruct (N.leb_spec c 0xDFFF); simpl;
      split; intros Hs; first [lia | by eauto | destruct Hs as [? [=]]].
  - destruct (N.ltb_spec c 0x110000);
      split; intros Hs; first [lia | by eauto | destruct Hs as [? [=]]].
Qed.

Lemma encode_utf8_scalar (s : pystr) : is_Some (encode_utf8 s) <-> Forall is_scalar s.
Proof.
  induction s as [|c s IH]; simpl.
  - split; [constructor|eauto].
  - rewrite Forall_cons, <- IH, <- utf8_char_scalar.
    destruct (utf8_char c), (encode_utf8 s); split;
      try (intros [? [=]]); try (intros [[? [=]] [? [=]]]); eauto.
Qed.

(** X12. [get_sha256_hash] has a result exactly for the strings of Unicode
    scalar values: a lone surrogate makes [encode] raise.  The result is
    64 hexadecimal digits in lower case, so the id of a record never holds
    a slash and is never empty. *)
Theorem get_sha256_hash_shape (value : pystr) :
  (is_Some (get_sha256_hash value) <-> Forall is_scalar value) /\
  (forall sha256_hash, get_sha256_hash value = Some sha256_hash ->
     length sha256_hash = 64%nat /\ Forall is_hex sha256_hash).
Proof.
  unfold get_sha256_hash. split.
  - rewrite <- encode_utf8_scalar. destruct (encode_utf8 value); simpl; split;
      try (intros [? [=]]); eauto.
  - intros h. destruct (encode_utf8 value) as [bytes|]; simpl; [|discriminate].
    intros [= <-]. apply hexdigest_shape.
Qed.

End Digest.

(** ** What the store holds *)

(** The properties of a record are the ones computed from its value, with
    the digest added. *)
Definition computed `{Unicode} (entry : Entry) : Prop :=
  e_properties entry =
  with_sha256_hash (compute_string_properties (e_value entry)) (e_id entry).

Section Stored.
Context `{Unicode}.

Lemma computed_serve (db : Db) (path : pystr) (request : Request) :
  Forall computed (dict_values db) ->
  Forall computed (dict_values (serve db path request).2).
Proof.
  intros Hall.
  destruct (serve_cases db path request)
    as [(-> & _)|[(_ & _ & value & h & _ & _ & _ & ->)|(_ & h & e & _ & _ & _ & ->)]].
  - exact Hall.
  - simpl. unfold dict_values. rewrite map_app. apply Forall_app.
    split; [exact Hall|]. repeat constructor.
  - simpl. unfold dict_values in *. rewrite Forall_forall in *.
    intros entry Hin. apply Hall.
    apply list_elem_of_fmap in Hin as (item & -> & Hin).
    apply list_elem_of_fmap. exists item. split; [reflexivity|].
    eapply elem_of_sublist; [exact Hin|]. apply dict_del_sublist.
Qed.

Lemma computed_serve_all (requests : list (pystr * Request)) (db : Db) :
  Forall computed (dict_values db) ->
  Forall computed (dict_values (serve_all db requests)).
Proof.
  revert db. induction requests as [|[path request] rest IH]; intros db Hall; simpl.
  - exact Hall.
  - apply IH, computed_serve, Hall.
Qed.

(** X13. After any sequence of requests served from the empty store, the
    properties of every record are those [compute_string_properties] gives
    for the value of the record, with [sha256_hash] set to its id: no
    request stores or leaves behind properties of another string. *)
Theorem stored_properties_are_computed (requests : list (pystr * Request)) :
  Forall (fun entry =>
            e_properties entry =
              with_sha256_hash (compute_string_properties (e_value entry)) (e_id entry) /\
            p_sha256_hash (e_properties entry) = Some (e_id entry) /\
            p_length (e_properties entry) = Z.of_nat (length (e_value entry)))
         (dict_values (serve_all [] requests)).
Proof.
  eapply Forall_impl; [apply (computed_serve_all requests []); constructor|].
  intros entry Hc. unfold computed in Hc. rewrite Hc. auto.
Qed.

(** X14. A value that is stored is refused: after any sequence of requests
    served from the empty store, a POST that asks to store the value of a
    record still held is answered 409 and changes nothing; and a POST of a
    value is answered 409 exactly when a record is held under the digest of
    that value. *)
Theorem stored_value_is_refused (requests : list (pystr * Request))
    (post : Request) (value : pystr) :
  asks_to_store post value ->
  let db := serve_all [] requests in
  ((exists entry, entry ∈ dict_values db /\ e_value entry = value) ->
   serve db [] post = (error 409 "String already exists in the system", db)) /\
  (status_of (serve db [] post).1 = Some 409%Z <->
   exists entry, entry ∈ dict_values db /\ get_sha256_hash value = Some (e_id entry)).
Proof.
  intros [Hm Hb] db.
  destruct (well_formed_serve_all requests [] well_formed_empty) as [Hnd Hall].
  fold db in Hnd, Hall.
  assert (Hkey : forall h, dict_contains h db = true <->
                           exists entry, entry ∈ dict_values db /\ h = e_id entry).
  { intros h. rewrite dict_contains_true, <- well_keyed_ids by exact Hall.
    rewrite list_elem_of_fmap. split; intros (entry & ? & ?); eauto. }
  assert (Hdigest : forall entry, entry ∈ dict_values db ->
                                  get_sha256_hash (e_value entry) = Some (e_id entry)).
  { intros entry Hin. unfold dict_values in Hin.
    apply list_elem_of_fmap in Hin as ([k e] & -> & Hin).
    rewrite Forall_forall in Hall. destruct (Hall _ Hin) as (_ & bytes & Hbytes & Hid).
    simpl in *. unfold get_sha256_hash. rewrite Hbytes. simpl. congruence. }
  assert (E : serve db [] post = strings_view_post db post).
  { unfold serve, resolve, strings_view, request_is. simpl. rewrite Hm. reflexivity. }
  rewrite E, (strings_view_post_value db post value Hb).
  split.
  - intros (entry & Hin & <-). rewrite (Hdigest entry Hin).
    replace (dict_contains (e_id entry) db) with true; [reflexivity|].
    symmetry. apply Hkey. eauto.
  - destruct (get_sha256_hash value) as [h|]; simpl.
    + destruct (dict_contains h db) eqn:Ec; simpl.
      * split; [intros _|reflexivity]. apply Hkey in Ec as (entry & Hin & ->). eauto.
      * split; [discriminate|]. intros (entry & Hin & [= ->]).
        assert (dict_contains (e_id entry) db = true) by (apply Hkey; eauto). congruence.
    + split; [discriminate|]. intros (entry & _ & [=]).
Qed.

End Stored.

(** ** Order *)

Section Order.
Context `{Unicode}.

(** X15. The store keeps the order of insertion, and a record that is
    deleted and stored again loses its place: after a DELETE answered 204
    a POST of the same value is answered 201, the record it makes carries
    the time of this POST and stands last in the listing, behind the other
    records in their old order. *)
Theorem reinserted_goes_last (requests : list (pystr * Request))
    (delete post : Request) (value : pystr) (db' : Db) :
  serve (serve_all [] requests) value delete = (Response 204 NoContent, db') ->
  asks_to_store post value ->
  exists entry,
    (serve db' [] post).1 = Response 201 (EntryBody entry) /\
    e_value entry = value /\ e_created_at entry = now post /\
    dict_values (serve db' [] post).2 =
      List.filter (fun old => negb (bool_decide (e_id entry = e_id old)))
                  (dict_values (serve_all [] requests)) ++ [entry].
Proof.
  intros E [Hm Hb].
  destruct (well_formed_serve_all requests [] well_formed_empty) as [Hnd Hall].
  set (db := serve_all [] requests) in *.
  destruct (serve_cases db value delete)
    as [(_ & _ & E204)|[(_ & _ & v & h & _ & _ & _ & E')|(_ & h & deleted & Hr & Hh & Hg & E')]].
  - rewrite E in E204. simpl in E204. congruence.
  - rewrite E in E'. discriminate E'.
  - rewrite E in E'. injection E' as ->.
    rewrite serve_collection, (strings_view_post_request _ _ Hm),
      (strings_view_post_value _ _ _ Hb), Hh.
    assert (Hc : dict_contains h (dict_del h db) = false).
    { unfold dict_contains. rewrite dict_get_del_eq by exact Hnd. reflexivity. }
    rewrite Hc, dict_set_new by exact Hc.
    eexists. split; [reflexivity|]. split; [reflexivity|]. split; [reflexivity|].
    cbn [snd e_id entry_of]. unfold dict_values. rewrite map_app. f_equal.
    rewrite dict_del_filter by exact Hnd.
    rewrite values_without_key by exact Hall.
    apply List.filter_ext. intros old.
    destruct (decide (h = e_id old)) as [->|Hne].
    + rewrite !bool_decide_eq_true_2 by reflexivity. reflexivity.
    + rewrite !bool_decide_eq_false_2 by congruence. reflexivity.
Qed.

End Order.

(** ** What the parser reads *)

Section Reading.
Context `{Unicode}.

(** The five fields of the filters read off a lower-cased query. *)
Lemma interpret_fields (q : pystr) :
  f_is_palindrome (interpret q) =
    (if str_contains (cps "palindromic") q || str_contains (cps "palindrome") q
     then Some true else None) /\
  f_word_count (interpret q) = count_in q /\
  f_min_length (interpret q) =
    match number_in length_re q with
    | Some n => Some n
    | None => (fun n => n + 1)%Z <$> number_in min_length_re q
    end /\
  f_max_length (interpret q) =
    match number_in length_re q with
    | Some n => Some n
    | None => (fun n => n - 1)%Z <$> number_in max_length_re q
    end /\
  f_contains_character (interpret q) =
    (if str_contains (cps "first vowel") q then Some (cps "a")
     else re_search contains_re q ≫= group 1).
Proof.
  unfold interpret.
  destruct (str_contains (cps "palindromic") q || str_contains (cps "palindrome") q),
    (count_in q), (number_in min_length_re q), (number_in max_length_re q),
    (number_in length_re q), (re_search contains_re q ≫= group 1),
    (str_contains (cps "first vowel") q); repeat split.
Qed.






(** Every match of the count phrase gives a count: group 1 is a number
    word or a run of digits, and [isdigit] holds of a run of digits. *)
Lemma count_in_some (q : pystr) (m : captures) :
  re_search word_count_re q = Some m ->
  exists n, count_in q = Some n /\ (0 <= n)%Z.
Proof.
  intros E. unfold count_in. rewrite E. cbn [mbind option_bind].
  destruct (word_count_group _ _ E) as (cs & -> & Hcs). cbn [mbind option_bind].
  destruct (dict_get cs word_map) as [n|] eqn:Ew.
  - exists n. split; [reflexivity|].
    unfold word_map in Ew. cbn [dict_get] in Ew.
    repeat (case_bool_decide as Ek; [injection Ew as <-; lia|clear Ek]).
    discriminate Ew.
  - destruct Hcs as [[n Hn]|[Hne Hds]]; [congruence|].
    rewrite (digits_isdigit cs Hne Hds). eexists. split; [reflexivity|].
    apply decimal_value_nonneg.
Qed.

Lemma count_in_none (q : pystr) :
  count_in q = None <-> re_search word_count_re q = None.
Proof.
  destruct (re_search word_count_re q) as [m|] eqn:E.
  - destruct (count_in_some q m E) as (n & -> & _). split; discriminate.
  - unfold count_in. rewrite E. tauto.
Qed.

Lemma number_in_nonneg (r : regex) (q : pystr) (n : Z) :
  number_in r q = Some n -> (0 <= n)%Z.
Proof.
  unfold number_in. destruct (re_search r q) as [m|]; cbn; [|discriminate].
  destruct (group 1 m) as [ds|]; cbn; [|discriminate].
  intros [= <-]. apply decimal_value_nonneg.
Qed.


(** X17. The filters the parser returns are in range: [is_palindrome] is
    only ever [True], [word_count] and [min_length] are not negative,
    [max_length] is at least -1 (from [shorter than 0]), and
    [contains_character] is one letter from [a] to [z]; [original] is the
    query as it came. *)
Theorem parsed_filters_in_range (query : pystr) (interpreted : InterpretedQuery) :
  parse_natural_language_query query = Continue (Some interpreted) ->
  let f := parsed_filters interpreted in
  original interpreted = query /\
  (f_is_palindrome f = None \/ f_is_palindrome f = Some true) /\
  (forall n, f_word_count f = Some n -> (0 <= n)%Z) /\
  (forall n, f_min_length f = Some n -> (0 <= n)%Z) /\
  (forall n, f_max_length f = Some n -> (-1 <= n)%Z) /\
  (forall char, f_contains_character f = Some char ->
     exists c, char = [c] /\ 97 <= c <= 122).
Proof.
  rewrite parse_natural_language_query_total.
  destruct (filters_empty _); [discriminate|]. intros [= <-]. cbn [parsed_filters original].
  destruct (interpret_fields (str_lower query)) as (Ep & Ew & Emin & Emax & Ec).
  rewrite Ep, Ew, Emin, Emax, Ec. clear Ep Ew Emin Emax Ec.
  set (q := str_lower query).
  split; [reflexivity|]. split; [destruct (_ || _); auto|]. split.
  { intros n Hn. destruct (re_search word_count_re q) as [m|] eqn:E.
    - destruct (count_in_some q m E) as (n' & Hn' & ?). congruence.
    - apply count_in_none in E. congruence. }
  split.
  { intros n. destruct (number_in length_re q) as [k|] eqn:Ek.
    - intros [= <-]. eapply number_in_nonneg, Ek.
    - destruct (number_in min_length_re q) as [k|] eqn:Ek'; [|discriminate].
      intros [= <-]. apply number_in_nonneg in Ek'. lia. }
  split.
  { intros n. destruct (number_in length_re q) as [k|] eqn:Ek.
    - intros [= <-]. apply number_in_nonneg in Ek. lia.
    - destruct (number_in max_length_re q) as [k|] eqn:Ek'; [|discriminate].
      intros [= <-]. apply number_in_nonneg in Ek'. lia. }
  intros char. destruct (str_contains (cps "first vowel") q).
  - intros [= <-]. exists 97. split; [reflexivity|lia].
  - destruct (re_search contains_re q) as [m|] eqn:E; [|discriminate].
    cbn [mbind option_bind]. destruct (contains_group _ _ E) as (c & -> & Hc).
    intros [= <-]. eauto.
Qed.

End Reading.

Section FirstVowel.
Context `{Unicode}.


End FirstVowel.

(** ** What the natural-language endpoint answers *)

Section Asking.
Context `{Unicode}.







End Asking.

(** ** The two listings *)

Section TwoListings.
Context `{Unicode}.

(** X21. The two listings agree: what the natural-language endpoint
    returns with status 200 is what [GET /strings] returns for the query
    string that spells the parsed filters out, record for record, with the
    same count and with the parsed filters as the filters applied. *)
Theorem query_answers_as_listing (db : Db) (request listing : Request)
    (data : list Entry) (count : Z) (interpreted : InterpretedQuery) :
  filter_by_natural_language db request =
    Response 200 (QueryBody data count interpreted) ->
  GET listing = query_of (parsed_filters interpreted) ->
  strings_view_get db listing =
    Response 200 (ListBody data count (parsed_filters interpreted)).
Proof.
  unfold filter_by_natural_language.
  destruct (negb (request_is "GET" request)); [discriminate|].
  destruct (qd_get (cps "query") (GET request)) as [[|c query]|]; try discriminate.
  rewrite parse_natural_language_query_total.
  destruct (filters_empty _); [discriminate|].
  cbv zeta. cbn [parsed_filters].
  destruct (conflicting _) as [[mn mx]|]; [discriminate|].
  destruct (interpret_shape (str_lower (c :: query))) as [Hp Hchar].
  rewrite apply_parsed_filters_satisfies by assumption.
  intros [= <- <- <-] Hq. cbn [parsed_filters] in *.
  apply strings_view_get_query_of; assumption.
Qed.

End TwoListings.

(** * Examples: the scenarios of the specification, run *)

Section Examples.
#[local] Existing Instance ascii_only.
Local Open Scope string_scope.

Definition post_value (value : pystr) (time : string) : Request := {|
  method := cps "POST";
  body := Loaded (JDict [(cps "value", JStr value)]);
  GET := [];
  now := cps time |}.

Definition post (value : string) (time : string) : Request :=
  post_value (cps value) time.

Definition request (verb : string) (params : list (string * string)) : Request := {|
  method := cps verb;
  body := JSONDecodeError;
  GET := map (fun kv => (cps kv.1, cps kv.2)) params;
  now := cps "2025-10-20T12:00:00+00:00" |}.

(** The digest of a value, and its record stored at a given time. *)
Definition digest (value : string) : pystr :=
  default [] (get_sha256_hash (cps value)).

Definition stored (value : string) (time : string) : Entry :=
  entry_of (cps value) (digest value) (cps time).

(** A store with ["hi"] and ["hello world"]. *)
Definition greetings : Db :=
  serve_all [] [([], post "hi" "t1"); ([], post "hello world" "t2")].

(** A store with a palindrome and another word. *)
Definition words : Db :=
  serve_all [] [([], post "racecar" "t1"); ([], post "hello" "t2")].

(** The derived constants are those printed in the standard. *)
Example sha256_constants :
  length SHA256.K = 64%nat /\
  SHA256.K !! 0%nat = Some 0x428a2f98 /\ SHA256.K !! 63%nat = Some 0xc67178f2 /\
  SHA256.H0 !! 0%nat = Some 0x6a09e667 /\ SHA256.H0 !! 7%nat = Some 0x5be0cd19.
Proof. vm_compute. repeat split. Qed.

Example sha256_abc :
  get_sha256_hash (cps "abc") =
  Some (cps "ba7816bf8f01cfea414140de5dae2223b00361a396177a9cb410ff61f20015ad").
Proof. vm_compute. reflexivity. Qed.

Example sha256_empty :
  get_sha256_hash [] =
  Some (cps "e3b0c44298fc1c149afbf4c8996fb92427ae41e4649b934ca495991b7852b855").
Proof. vm_compute. reflexivity. Qed.

Example sha256_two_blocks :
  get_sha256_hash (cps "abcdbcdecdefdefgefghfghighijhijkijkljklmklmnlmnomnopnopq") =
  Some (cps "248d6a61d20638b8e5c026930c3e6039a33ce45964ff2167f6ecedd419db06c1").
Proof. vm_compute. reflexivity. Qed.

(** U+00E9, U+20AC and U+1F600: two, three and four bytes. *)
Example utf8_samples :
  encode_utf8 [0xE9; 0x20AC; 0x1F600] =
  Some [0xC3; 0xA9; 0xE2; 0x82; 0xAC; 0xF0; 0x9F; 0x98; 0x80].
Proof. vm_compute. reflexivity. Qed.

Example racecar_properties :
  let p := compute_string_properties (cps "racecar") in
  p_length p = 7%Z /\ p_is_palindrome p = true /\
  p_unique_characters p = 4%Z /\ p_word_count p = 1%Z /\
  p_character_frequency_map p =
    <[114 := 2%Z]> (<[97 := 2%Z]> (<[99 := 2%Z]> (<[101 := 1%Z]> ∅))).
Proof. vm_compute. repeat split. Qed.

Example racecar_created :
  (serve [] [] (post "racecar" "t1")).1 = Response 201 (EntryBody (stored "racecar" "t1")).
Proof. vm_compute. reflexivity. Qed.

Example delete_never_inserted :
  serve [] (cps "foo") (request "DELETE" []) =
  (error 404 "String does not exist in the system", []).
Proof. vm_compute. reflexivity. Qed.

Example palindromic_three_words :
  parse_natural_language_query (cps "find all palindromic strings with exactly 3 words") =
  Continue (Some {|
    original := cps "find all palindromic strings with exactly 3 words";
    parsed_filters := set_word_count 3 (set_is_palindrome true no_filters) |}).
Proof. vm_compute. reflexivity. Qed.

Example longer_than_five :
  parse_natural_language_query (cps "strings longer than 5 characters") =
  Continue (Some {|
    original := cps "strings longer than 5 characters";
    parsed_filters := set_min_length 6 no_filters |}).
Proof. vm_compute. reflexivity. Qed.

Example exactly_four_characters :
  parse_natural_language_query (cps "exactly 4 characters") =
  Continue (Some {|
    original := cps "exactly 4 characters";
    parsed_filters := set_max_length 4 (set_min_length 4 no_filters) |}).
Proof. vm_compute. reflexivity. Qed.

Example exactly_four_finds_nothing :
  filter_by_natural_language (serve_all [] [([], post "abc" "t1")])
    (request "GET" [("query", "exactly 4 characters")]) =
  Response 200 (QueryBody [] 0 {|
    original := cps "exactly 4 characters";
    parsed_filters := set_max_length 4 (set_min_length 4 no_filters) |}).
Proof. vm_compute. reflexivity. Qed.

(** [exactly] overwrites what [longer than] and [shorter than] set. *)
Example exactly_overwrites :
  parse_natural_language_query
    (cps "longer than 10 and shorter than 3 but exactly 7 characters") =
  Continue (Some {|
    original := cps "longer than 10 and shorter than 3 but exactly 7 characters";
    parsed_filters := set_max_length 7 (set_min_length 7 no_filters) |}).
Proof. vm_compute. reflexivity. Qed.

(** Requests answered with each 4xx status. *)
Example client_errors :
  (serve greetings [] (post "hi" "t3")).1 =
    error 409 "String already exists in the system" /\
  (serve greetings [] (request "POST" [])).1 = error 400 "Invalid JSON format" /\
  (serve greetings [] (request "GET" [("min_length", "ten")])).1 =
    error 400 "Invalid query parameter value or type" /\
  (serve greetings (cps "bye") (request "GET" [])).1 =
    error 404 "String does not exist in the system" /\
  (serve greetings (cps "hi") (request "PATCH" [])).1 = error 405 "Method not allowed" /\
  (serve greetings (cps "filter-by-natural-language")
     (request "GET" [("query", "longer than 10 shorter than 5")])).1 =
    Response 422 (ConflictBody "Query parsed but resulted in conflicting filters" 11 4).
Proof. vm_compute. repeat split. Qed.

(** ** Witnesses *)




Lemma post_asks_to_store (value : pystr) (time : string) :
  asks_to_store (post_value value time) value.
Proof. split; [reflexivity|]. eexists. split; reflexivity. Qed.

(** The query ["palindromic strings"] on a palindrome and another word. *)
Lemma natural_language_filters_witness :
  (exists query,
     qd_get (cps "query") (GET (request "GET" [("query", "palindromic strings")])) =
       Some query /\
     parse_natural_language_query query =
       Continue (Some {| original := cps "palindromic strings";
                         parsed_filters := set_is_palindrome true no_filters |})) /\
  [stored "racecar" "t1"] =
    List.filter (satisfies (set_is_palindrome true no_filters)) (dict_values words) /\
  1%Z = Z.of_nat (length [stored "racecar" "t1"]).
Proof.
  apply (natural_language_filters words (request "GET" [("query", "palindromic strings")])
           [stored "racecar" "t1"] 1
           {| original := cps "palindromic strings";
              parsed_filters := set_is_palindrome true no_filters |}).
  vm_compute. reflexivity.
Defined.

(** C5: ["abc"] posted twice, and deleted and posted again. *)
Lemma insert_twice_delete_reinsert_witness :
  (strings_view [] (post "abc" "t1") =
     (Response 201 (EntryBody (stored "abc" "t1")), [(digest "abc", stored "abc" "t1")]) /\
   e_id (stored "abc" "t1") = digest "abc" /\
   strings_view ([(digest "abc", stored "abc" "t1")]) (post "abc" "t2") =
     (error 409 "String already exists in the system",
      [(digest "abc", stored "abc" "t1")])) /\
  (exists deleted entry,
     dict_get (e_id deleted) (serve_all [] [([], post "abc" "t1")]) = Some deleted /\
     [] = dict_del (e_id deleted) (serve_all [] [([], post "abc" "t1")]) /\
     strings_view [] (post "abc" "t3") =
       (Response 201 (EntryBody entry), [(e_id entry, entry)]) /\
     e_value entry = cps "abc" /\
     e_id entry = e_id deleted /\
     get_sha256_hash (cps "abc") = Some (e_id entry)).
Proof.
  split.
  - apply (proj1 insert_twice_delete_reinsert [] (post "abc" "t1") (post "abc" "t2")
             (cps "abc") (digest "abc"));
      try apply post_asks_to_store; vm_compute; reflexivity.
  - apply (proj2 insert_twice_delete_reinsert [([], post "abc" "t1")]
             (request "DELETE" []) (post "abc" "t3") (cps "abc") []);
      try apply post_asks_to_store; vm_compute; reflexivity.
Defined.

(** C5, counterexample: the first of two POSTs is not always answered
    201.  A value that is stored already is answered 409 at once; and a
    lone surrogate, which a JSON body can spell, has no UTF-8 encoding, so
    the POST raises and stores nothing. *)
Lemma first_insert_is_not_always_201 :
  (asks_to_store (post "hi" "t3") (cps "hi") /\
   strings_view greetings (post "hi" "t3") =
     (error 409 "String already exists in the system", greetings)) /\
  (asks_to_store (post_value [0xD800] "t1") [0xD800] /\
   strings_view [] (post_value [0xD800] "t1") = (Raised UnicodeEncodeError, [])).
Proof.
  split; (split; [apply post_asks_to_store|]); vm_compute; reflexivity.
Qed.

(** C7: [is_palindrome=TRUE] on a palindrome and another word. *)
Lemma is_palindrome_parameter_witness :
  (exists b, f_is_palindrome (set_is_palindrome true no_filters) = Some b /\
             (b = true <-> str_lower (cps "TRUE") = cps "true") /\
             forall s, s ∈ [stored "racecar" "t1"] ->
                       p_is_palindrome (e_properties s) = b) /\
  (forallb is_ascii (cps "TRUE") = true ->
   (str_lower (cps "TRUE") = cps "true" <-> map ascii_lower (cps "TRUE") = cps "true")).
Proof.
  apply (is_palindrome_parameter words (request "GET" [("is_palindrome", "TRUE")])
           (cps "TRUE") [stored "racecar" "t1"] 1 (set_is_palindrome true no_filters));
    vm_compute; reflexivity.
Defined.

(** C7, counterexample: ["TRUE"] is not the text ["true"], yet the view
    reads it as true and keeps the palindromes. *)
Lemma upper_case_true_is_true :
  cps "TRUE" <> cps "true" /\
  strings_view_get words (request "GET" [("is_palindrome", "TRUE")]) =
  Response 200 (ListBody [stored "racecar" "t1"] 1 (set_is_palindrome true no_filters)).
Proof.
  split; [intros E; vm_compute in E; discriminate E|]. vm_compute. reflexivity.
Qed.

(** C8: PATCH on a stored value. *)
Lemma other_methods_witness :
  serve greetings (cps "hi") (request "PATCH" []) =
  if dict_contains (digest "hi") greetings
  then (error 405 "Method not allowed", greetings)
  else (error 404 "String does not exist in the system", greetings).
Proof.
  apply (proj2 (proj2 (other_methods greetings (cps "hi") (request "PATCH" [])))
           (cps "hi") (digest "hi")).
  - vm_compute. reflexivity.
  - intros E. vm_compute in E. discriminate E.
  - intros E. vm_compute in E. discriminate E.
  - vm_compute. reflexivity.
Defined.

(** C8, counterexample: PUT on a value that is not stored is answered
    404, not 405. *)
Lemma put_on_unknown_value_is_404 :
  resolve (cps "foo") = Some (DetailView (cps "foo")) /\
  serve [] (cps "foo") (request "PUT" []) =
  (error 404 "String does not exist in the system", []).
Proof. split; vm_compute; reflexivity. Qed.


Example longer_than_three_words :
  parse_natural_language_query (cps "longer than 3 words") =
  Continue (Some {|
    original := cps "longer than 3 words";
    parsed_filters := set_min_length 4 (set_word_count 3 no_filters) |}).
Proof. vm_compute. reflexivity. Qed.

(** An [exactly] phrase after the phrase takes [min_length] over. *)
Example exactly_after_longer_than :
  parse_natural_language_query (cps "longer than 3 words, exactly 9 characters") =
  Continue (Some {|
    original := cps "longer than 3 words, exactly 9 characters";
    parsed_filters := set_max_length 9 (set_min_length 9 (set_word_count 3 no_filters)) |}).
Proof. vm_compute. reflexivity. Qed.


(** ** The further properties, run *)

(** ["abc"] stored and read back. *)
Lemma post_then_get_witness :
  serve [(digest "abc", stored "abc" "t1")] (cps "abc") (request "GET" []) =
    (Response 200 (EntryBody (stored "abc" "t1")), [(digest "abc", stored "abc" "t1")]) /\
  e_value (stored "abc" "t1") = cps "abc" /\
  get_sha256_hash (cps "abc") = Some (e_id (stored "abc" "t1")) /\
  [(digest "abc", stored "abc" "t1")] =
    [(e_id (stored "abc" "t1"), stored "abc" "t1")].
Proof.
  apply (post_then_get [] [(digest "abc", stored "abc" "t1")] (post "abc" "t1")
           (request "GET" []) (cps "abc") (stored "abc" "t1"));
    [apply post_asks_to_store|vm_compute; reflexivity ..].
Defined.

(** ["abc"] stored and deleted. *)
Lemma delete_then_gone_witness :
  (forall r, serve [] (cps "abc") r =
             (error 404 "String does not exist in the system", [])) /\
  (forall k, get_sha256_hash (cps "abc") <> Some k ->
     dict_get k ([] : Db) = dict_get k (serve_all [] [([], post "abc" "t1")])) /\
  dict_values ([] : Db) =
    List.filter (fun entry => negb (bool_decide (get_sha256_hash (cps "abc") = Some (e_id entry))))
                (dict_values (serve_all [] [([], post "abc" "t1")])).
Proof.
  apply (delete_then_gone [([], post "abc" "t1")] (request "DELETE" []) (cps "abc") []).
  vm_compute. reflexivity.
Defined.

(** Deleting ["hi"] leaves the record of ["hello world"] as it was. *)
Lemma stored_record_never_changes_witness :
  dict_get (digest "hello world")
    (serve greetings (cps "hi") (request "DELETE" [])).2 =
    Some (stored "hello world" "t2") \/
  (method (request "DELETE" []) = cps "DELETE" /\
   get_sha256_hash (cps "hi") = Some (digest "hello world") /\
   (serve greetings (cps "hi") (request "DELETE" [])).1 = Response 204 NoContent).
Proof.
  apply (stored_record_never_changes greetings (cps "hi") (request "DELETE" [])
           (digest "hello world") (stored "hello world" "t2")).
  vm_compute. reflexivity.
Defined.

(** The value ["a/b"] is on no path. *)
Lemma unreachable_values_witness :
  (forall entry, (serve greetings (cps "a/b") (request "DELETE" [])).1 <>
                 Response 200 (EntryBody entry)) /\
  (serve greetings (cps "a/b") (request "DELETE" [])).1 <> Response 204 NoContent /\
  (forall k entry, dict_get k greetings = Some entry ->
     dict_get k (serve greetings (cps "a/b") (request "DELETE" [])).2 = Some entry).
Proof.
  apply (unreachable_values greetings (cps "a/b") (request "DELETE" [])).
  right. right. apply list_elem_of_In. vm_compute. right. left. reflexivity.
Defined.

(** [min_length=5] with [max_length=3]. *)
Lemma crossed_bounds_list_nothing_witness :
  strings_view_get greetings (request "GET" [("min_length", "5"); ("max_length", "3")]) =
    Response 200 (ListBody [] 0 (set_max_length 3 (set_min_length 5 no_filters))) /\
  ([] : list Entry) = [] /\ 0%Z = 0%Z.
Proof.
  assert (E : strings_view_get greetings
                (request "GET" [("min_length", "5"); ("max_length", "3")]) =
              Response 200 (ListBody [] 0 (set_max_length 3 (set_min_length 5 no_filters))))
    by (vm_compute; reflexivity).
  split; [exact E|].
  apply (crossed_bounds_list_nothing greetings
           (request "GET" [("min_length", "5"); ("max_length", "3")])
           [] 0 (set_max_length 3 (set_min_length 5 no_filters)) 5 3 E);
    [reflexivity|reflexivity|lia].
Defined.

(** ["hi"] posted to a store that holds it. *)
Lemma stored_value_is_refused_witness :
  ((exists entry, entry ∈ dict_values greetings /\ e_value entry = cps "hi") ->
   serve greetings [] (post "hi" "t3") =
     (error 409 "String already exists in the system", greetings)) /\
  (status_of (serve greetings [] (post "hi" "t3")).1 = Some 409%Z <->
   exists entry, entry ∈ dict_values greetings /\
                 get_sha256_hash (cps "hi") = Some (e_id entry)).
Proof.
  unfold greetings.
  apply (stored_value_is_refused
           [([], post "hi" "t1"); ([], post "hello world" "t2")]
           (post "hi" "t3") (cps "hi")).
  apply post_asks_to_store.
Defined.

(** ["hi"] deleted and stored again comes after ["hello world"]. *)
Lemma reinserted_goes_last_witness :
  exists entry,
    (serve [(digest "hello world", stored "hello world" "t2")] [] (post "hi" "t3")).1 =
      Response 201 (EntryBody entry) /\
    e_value entry = cps "hi" /\ e_created_at entry = now (post "hi" "t3") /\
    dict_values
      (serve [(digest "hello world", stored "hello world" "t2")] [] (post "hi" "t3")).2 =
      app (List.filter (fun old => negb (bool_decide (e_id entry = e_id old)))
                       (dict_values greetings))
          [entry].
Proof.
  unfold greetings.
  apply (reinserted_goes_last
           [([], post "hi" "t1"); ([], post "hello world" "t2")]
           (request "DELETE" []) (post "hi" "t3") (cps "hi")
           [(digest "hello world", stored "hello world" "t2")]).
  - vm_compute. reflexivity.
  - apply post_asks_to_store.
Defined.

(** The filters of ["exactly 4 characters"]. *)
Lemma parsed_filters_in_range_witness :
  let f := set_max_length 4 (set_min_length 4 no_filters) in
  cps "exactly 4 characters" = cps "exactly 4 characters" /\
  (f_is_palindrome f = None \/ f_is_palindrome f = Some true) /\
  (forall n, f_word_count f = Some n -> (0 <= n)%Z) /\
  (forall n, f_min_length f = Some n -> (0 <= n)%Z) /\
  (forall n, f_max_length f = Some n -> (-1 <= n)%Z) /\
  (forall char, f_contains_character f = Some char ->
     exists c, char = [c] /\ (97 <= c <= 122)%N).
Proof.
  apply (parsed_filters_in_range (cps "exactly 4 characters")
           {| original := cps "exactly 4 characters";
              parsed_filters := set_max_length 4 (set_min_length 4 no_filters) |}).
  vm_compute. reflexivity.
Defined.




(** ["palindromic strings"] and [is_palindrome=true] list the same. *)
Lemma query_answers_as_listing_witness :
  strings_view_get words (request "GET" [("is_palindrome", "true")]) =
    Response 200 (ListBody [stored "racecar" "t1"] 1 (set_is_palindrome true no_filters)).
Proof.
  apply (query_answers_as_listing words
           (request "GET" [("query", "palindromic strings")])
           (request "GET" [("is_palindrome", "true")])
           [stored "racecar" "t1"] 1
           {| original := cps "palindromic strings";
              parsed_filters := set_is_palindrome true no_filters |});
    vm_compute; reflexivity.
Defined.

End Examples.
